(** * server.py: query validation, tool catalog and result shaping

    A shallow embedding of [server.py], the MCP server that exposes a
    PostgreSQL customer-support database to an assistant.

    Conventions of the model.
    - Python [str] is [string]; the model covers ASCII text: [upper] maps
      [a-z] to [A-Z] and leaves every other character alone, [strip] removes
      the ASCII characters for which [str.isspace] holds.
    - A Python call either returns a value or raises: [result].
    - Calls to [logger] are left out: they change neither the value a tool
      returns nor what happens to the connection.  The one logging argument
      whose evaluation can raise, [result['health_score']], is kept.
    - The store connector (psycopg2 and the database behind it) is an
      external collaborator; tools are written against a [Connector].
    - What a statement of the catalog selects is read from its text: the
      text is parsed and evaluated over tables of rows.  A connector is
      held to that only where a property says so. *)

From Stdlib Require Import Bool List String Ascii ZArith NArith Lia.
From Stdlib Require Import Floats.SpecFloat.
From Stdlib Require Import DecimalString Permutation.
Import ListNotations.

Open Scope string_scope.

(** ** Outcomes of a Python call *)

Inductive exn : Type :=
| ValueError (msg : string)
| KeyError (key : string)
| DatabaseError (msg : string).

Inductive result (A : Type) : Type :=
| Return (a : A)
| Raise (e : exn).

Arguments Return {A} a.
Arguments Raise {A} e.

(** ** String operations used by [validate_query] *)

Definition is_lower (c : ascii) : bool :=
  let n := N_of_ascii c in ((97 <=? n) && (n <=? 122))%N.

Definition upper_char (c : ascii) : ascii :=
  if is_lower c then ascii_of_N (N_of_ascii c - 32) else c.

(** [str.upper] *)
Fixpoint upper (s : string) : string :=
  match s with
  | EmptyString => EmptyString
  | String c s' => String (upper_char c) (upper s')
  end.

(** [str.isspace] on one ASCII character: TAB, LF, VT, FF, CR, the four
    separators 0x1c-0x1f and the space. *)
Definition isspace (c : ascii) : bool :=
  let n := N_of_ascii c in
  (((9 <=? n) && (n <=? 13)) || ((28 <=? n) && (n <=? 32)))%N.

Fixpoint lstrip (s : string) : string :=
  match s with
  | EmptyString => EmptyString
  | String c s' => if isspace c then lstrip s' else s
  end.

Fixpoint rstrip (s : string) : string :=
  match s with
  | EmptyString => EmptyString
  | String c s' =>
      match rstrip s' with
      | EmptyString => if isspace c then EmptyString else String c EmptyString
      | r => String c r
      end
  end.

(** [str.strip()] *)
Definition strip (s : string) : string := rstrip (lstrip s).

(** [s.startswith(p)] *)
Fixpoint startswith (p s : string) : bool :=
  match p, s with
  | EmptyString, _ => true
  | String a p', String b s' => Ascii.eqb a b && startswith p' s'
  | String _ _, EmptyString => false
  end.

(** [k in s] on strings: [k] occurs in [s] at some offset. *)
Fixpoint contains (k s : string) : bool :=
  startswith k s ||
  match s with
  | EmptyString => false
  | String _ s' => contains k s'
  end.

(** What [contains] decides. *)
Definition is_substring (k s : string) : Prop :=
  exists pre post, s = pre ++ k ++ post.

(** ** Security: query validation *)

Definition FORBIDDEN_KEYWORDS : list string :=
  ["DROP"; "DELETE"; "UPDATE"; "INSERT"; "TRUNCATE";
   "ALTER"; "CREATE"; "GRANT"; "REVOKE"].

(** The [for keyword in FORBIDDEN_KEYWORDS] loop: the first keyword found
    raises. *)
Fixpoint check_forbidden (keywords : list string) (query_upper : string)
  : result unit :=
  match keywords with
  | [] => Return tt
  | keyword :: rest =>
      if contains keyword query_upper
      then Raise (ValueError ("Forbidden operation detected: " ++ keyword))
      else check_forbidden rest query_upper
  end.

(** [query.upper().strip()] *)
Definition normalize (query : string) : string := strip (upper query).

Definition validate_query (query : string) : result bool :=
  let query_upper := normalize query in
  if negb (startswith "SELECT" query_upper)
  then Raise (ValueError "Only SELECT queries are permitted")
  else
    match check_forbidden FORBIDDEN_KEYWORDS query_upper with
    | Raise e => Raise e
    | Return _ => Return true
    end.

(** The specification's reading of "begins with the token SELECT": the
    normalized text starts with the six letters and the next character, if
    there is one, cannot continue an identifier. *)
Definition is_word_char (c : ascii) : bool :=
  let n := N_of_ascii c in
  (((48 <=? n) && (n <=? 57)) || ((65 <=? n) && (n <=? 90))
   || ((97 <=? n) && (n <=? 122)) || (n =? 95))%N.

Fixpoint drop (n : nat) (s : string) : string :=
  match n, s with
  | O, _ => s
  | S n', String _ s' => drop n' s'
  | S _, EmptyString => EmptyString
  end.

Definition spec_begins_with_token_SELECT (query_upper : string) : bool :=
  startswith "SELECT" query_upper &&
  match drop 6 query_upper with
  | EmptyString => true
  | String c _ => negb (is_word_char c)
  end.

(** ** The health score rule

    The [CASE] expression of the query of [get_customer_health_score], over
    the two [COUNT] columns it reads. *)

Definition health_score (open_tickets high_priority_tickets : N) : N :=
  if (open_tickets =? 0)%N then 100
  else if ((open_tickets <=? 2) && (high_priority_tickets =? 0))%N then 85
  else if ((open_tickets <=? 5) && (high_priority_tickets <=? 1))%N then 70
  else if (2 <=? high_priority_tickets)%N then 40
  else 60.

(** The [WHEN] conditions on their own, and what it means for the k-th
    branch to be the one taken: its condition holds and no earlier one does. *)
Definition rule_condition (k : nat) (o h : N) : bool :=
  match k with
  | 1 => (o =? 0)%N
  | 2 => ((o <=? 2) && (h =? 0))%N
  | 3 => ((o <=? 5) && (h <=? 1))%N
  | 4 => (2 <=? h)%N
  | 5 => true
  | _ => false
  end.

Definition rule_score (k : nat) : N :=
  match k with
  | 1 => 100%N | 2 => 85%N | 3 => 70%N | 4 => 40%N | _ => 60%N
  end.

Definition rule_applies (k : nat) (o h : N) : bool :=
  rule_condition k o h &&
  forallb (fun j => negb (rule_condition j o h)) (seq 1 (k - 1)).

(** ** Values, rows and the store connector *)

(** What a column of a result row, or a bound parameter, can hold. *)
Inductive value : Type :=
| VNull
| VInt (n : Z)
| VFloat (f : spec_float)
| VRatio (num : Z) (den : positive)
| VText (s : string)
| VTimestamp (t : Z).

(** A [RealDictRow]: column names to values, in column order. *)
Definition row : Type := list (string * value).

(** [r[key]], [None] standing for the [KeyError]. *)
Fixpoint lookup (key : string) (r : row) : option value :=
  match r with
  | [] => None
  | (k, v) :: r' => if (k =? key)%string then Some v else lookup key r'
  end.

(** The external collaborator.  [connect] is what
    [psycopg2.connect(DATABASE_URL)] does ([None]: a connection is
    established), [execute sql params] is what [cur.execute(sql, params)]
    does: it raises, or leaves the result rows in the cursor. *)
Record Connector : Type := {
  connect : option exn;
  execute : string -> list value -> exn + list row
}.

(** What happens to the connection of one invocation, in order. *)
Inductive event : Type :=
| Connect
| OpenCursor
| Execute (sql : string) (params : list value)
| CloseCursor
| Commit
| Rollback
| Close.

(** ** A computation: the events so far in, an outcome and the events out *)

Definition M (A : Type) : Type := list event -> result A * list event.

Definition ret {A} (a : A) : M A := fun tr => (Return a, tr).

Definition raise {A} (e : exn) : M A := fun tr => (Raise e, tr).

Definition bind {A B} (m : M A) (k : A -> M B) : M B :=
  fun tr =>
    match m tr with
    | (Return a, tr') => k a tr'
    | (Raise e, tr') => (Raise e, tr')
    end.

Definition emit (ev : event) : M unit := fun tr => (Return tt, (tr ++ [ev])%list).

Definition lift {A} (r : result A) : M A := fun tr => (r, tr).

Notation "x <- m ;; k" := (bind m (fun x => k))
  (at level 61, m at next level, right associativity).
Notation "m ;;; k" := (bind m (fun _ => k))
  (at level 61, right associativity).

(** Run a computation from an empty history. *)
Definition run {A} (m : M A) : result A := fst (m []).
Definition trace {A} (m : M A) : list event := snd (m []).

(** [with ctx: body] once [ctx] is entered: [exit_ raised] is
    [ctx.__exit__], called exactly once, with [raised] telling whether the
    body raised; neither [__exit__] used here swallows the exception. *)
Definition with_block {A} (exit_ : bool -> M unit) (body : M A) : M A :=
  fun tr =>
    match body tr with
    | (Return a, tr') => (exit_ false ;;; ret a) tr'
    | (Raise e, tr') => (exit_ true ;;; raise e) tr'
    end.

(** psycopg2's [connection.__exit__]: commit when the block ended normally,
    roll back when it raised.  It ends the transaction and leaves the
    connection open. *)
Definition connection_exit (raised : bool) : M unit :=
  if raised then emit Rollback else emit Commit.

(** psycopg2's [cursor.__exit__]: close the cursor. *)
Definition cursor_exit (raised : bool) : M unit := emit CloseCursor.

(** [get_db_connection()]: the exception of [psycopg2.connect] is logged
    and raised again. *)
Definition get_db_connection (K : Connector) : M unit :=
  match connect K with
  | None => emit Connect
  | Some e => raise e
  end.

(** [with get_db_connection() as conn: with conn.cursor() as cur: body] *)
Definition with_connection_cursor {A} (K : Connector) (body : M A) : M A :=
  get_db_connection K ;;;
  with_block connection_exit
    (emit OpenCursor ;;; with_block cursor_exit body).

(** [cur.execute(sql, params)]; the rows are then read with [fetchall] or
    [fetchone]. *)
Definition cur_execute (K : Connector) (sql : string) (params : list value)
  : M (list row) :=
  emit (Execute sql params) ;;;
  match execute K sql params with
  | inl e => raise e
  | inr rows => ret rows
  end.

Definition fetchall (rows : list row) : list row := rows.

Definition fetchone (rows : list row) : option row :=
  match rows with
  | [] => None
  | r :: _ => Some r
  end.

(** ** Tool definitions *)

(** *** query_database *)

Definition query_database (K : Connector) (query : string) : M (list row) :=
  lift (validate_query query) ;;;
  with_connection_cursor K
    (cur <- cur_execute K query [] ;;
     let results := fetchall cur in
     ret results).

(** *** get_customer_info *)

Definition customer_info_query : string :=
  "
        SELECT 
            c.*,
            COUNT(t.id) as total_tickets,
            COUNT(CASE WHEN t.status = 'Open' THEN 1 END) as open_tickets,
            COUNT(CASE WHEN t.status = 'In Progress' THEN 1 END) as in_progress_tickets,
            COUNT(CASE WHEN t.priority = 'High' THEN 1 END) as high_priority_tickets,
            MAX(t.created_at) as last_ticket_date
        FROM customers c
        LEFT JOIN support_tickets t ON c.id = t.customer_id
        WHERE c.name ILIKE %s OR c.email ILIKE %s
        GROUP BY c.id
        ORDER BY c.mrr DESC
    ".

Definition no_customer_text (search : string) : string :=
  "No customer found matching '" ++ search ++ "'".

Definition wildcard_wrap (search : string) : string :=
  "%" ++ search ++ "%".

Definition get_customer_info_request (search : string)
  : string * list value :=
  let search_pattern := wildcard_wrap search in
  (customer_info_query, [VText search_pattern; VText search_pattern]).

Definition get_customer_info (K : Connector) (search : string)
  : M (list row) :=
  with_connection_cursor K
    (let (query, params) := get_customer_info_request search in
     cur <- cur_execute K query params ;;
     let results := fetchall cur in
     match results with
     | [] => ret [[("message", VText (no_customer_text search))]]
     | _ :: _ => ret results
     end).

(** *** get_open_tickets *)

Definition open_tickets_query : string :=
  "
        SELECT 
            t.id,
            t.subject,
            t.status,
            t.priority,
            t.created_at,
            c.name as customer_name,
            c.subscription_tier,
            c.mrr,
            c.country,
            EXTRACT(DAY FROM NOW() - t.created_at) as days_open
        FROM support_tickets t
        JOIN customers c ON t.customer_id = c.id
        WHERE t.status IN ('Open', 'In Progress')
    ".

Definition priority_clause : string := " AND t.priority = %s".

Definition order_clause : string :=
  " ORDER BY t.priority DESC, t.created_at ASC".

(** Truth value of an [Optional[str]]: [None] and the empty string are
    false. *)
Definition truthy (priority : option string) : bool :=
  match priority with
  | None => false
  | Some EmptyString => false
  | Some (String _ _) => true
  end.

Definition get_open_tickets_request (priority : option string)
  : string * list value :=
  let query := open_tickets_query in
  let params := [] in
  let (query, params) :=
    match priority with
    | Some (String c p) =>
        (query ++ priority_clause, (params ++ [VText (String c p)])%list)
    | _ => (query, params)
    end in
  (query ++ order_clause, params).

Definition get_open_tickets (K : Connector) (priority : option string)
  : M (list row) :=
  let (query, params) := get_open_tickets_request priority in
  with_connection_cursor K
    (cur <- cur_execute K query params ;;
     let results := fetchall cur in
     ret results).

(** *** get_at_risk_customers *)

Definition at_risk_query : string :=
  "
        SELECT 
            c.name,
            c.email,
            c.country,
            c.subscription_tier,
            c.mrr,
            COUNT(t.id) as open_ticket_count,
            COUNT(CASE WHEN t.priority = 'High' THEN 1 END) as high_priority_count,
            STRING_AGG(t.subject, ' | ') as ticket_subjects,
            MAX(t.created_at) as newest_ticket_date,
            MAX(EXTRACT(DAY FROM NOW() - t.created_at)) as oldest_ticket_age_days
        FROM customers c
        JOIN support_tickets t ON c.id = t.customer_id
        WHERE t.status IN ('Open', 'In Progress')
          AND c.mrr >= %s
        GROUP BY c.id, c.name, c.email, c.country, c.subscription_tier, c.mrr
        ORDER BY c.mrr DESC
    ".

(** The default [20000.0] as a binary64 number: 20000 * 2^38 * 2^-38. *)
Definition default_min_mrr : spec_float :=
  S754_finite false 5497558138880000 (-38).

Definition get_at_risk_customers_request (min_mrr : spec_float)
  : string * list value :=
  (at_risk_query, [VFloat min_mrr]).

Definition get_at_risk_customers (K : Connector) (min_mrr : option spec_float)
  : M (list row) :=
  let min_mrr :=
    match min_mrr with Some m => m | None => default_min_mrr end in
  with_connection_cursor K
    (let (query, params) := get_at_risk_customers_request min_mrr in
     cur <- cur_execute K query params ;;
     let results := fetchall cur in
     ret results).

(** *** get_customer_health_score *)

Definition health_score_query : string :=
  "
        WITH customer_metrics AS (
            SELECT 
                c.id,
                c.name,
                c.subscription_tier,
                c.mrr,
                EXTRACT(DAY FROM NOW() - c.created_at) as account_age_days,
                COUNT(t.id) as total_tickets,
                COUNT(CASE WHEN t.status IN ('Open', 'In Progress') THEN 1 END) as open_tickets,
                COUNT(CASE WHEN t.priority = 'High' THEN 1 END) as high_priority_tickets,
                AVG(EXTRACT(DAY FROM t.resolved_at - t.created_at)) as avg_resolution_days
            FROM customers c
            LEFT JOIN support_tickets t ON c.id = t.customer_id
            WHERE c.name ILIKE %s
            GROUP BY c.id
        )
        SELECT 
            *,
            CASE 
                WHEN open_tickets = 0 THEN 100
                WHEN open_tickets <= 2 AND high_priority_tickets = 0 THEN 85
                WHEN open_tickets <= 5 AND high_priority_tickets <= 1 THEN 70
                WHEN high_priority_tickets >= 2 THEN 40
                ELSE 60
            END as health_score
        FROM customer_metrics
    ".

Definition get_customer_health_score_request (customer_name : string)
  : string * list value :=
  (health_score_query, [VText (wildcard_wrap customer_name)]).

Definition get_customer_health_score (K : Connector) (customer_name : string)
  : M row :=
  with_connection_cursor K
    (let (query, params) := get_customer_health_score_request customer_name in
     cur <- cur_execute K query params ;;
     let result := fetchone cur in
     match result with
     | None | Some [] =>
         ret [("error", VText (no_customer_text customer_name))]
     | Some (col :: cols) =>
         let result := col :: cols in
         match lookup "health_score" result with
         | None => raise (KeyError "health_score")
         | Some _ => ret result
         end
     end).

(** *** The catalog registered with [@mcp.tool()] *)

Inductive tool_call : Type :=
| Call_query_database (query : string)
| Call_get_customer_info (search : string)
| Call_get_open_tickets (priority : option string)
| Call_get_at_risk_customers (min_mrr : option spec_float)
| Call_get_customer_health_score (customer_name : string).

Inductive response : Type :=
| Rows (rows : list row)
| Object (obj : row).

Definition fmap {A B} (f : A -> B) (m : M A) : M B :=
  a <- m ;; ret (f a).

Definition invoke (K : Connector) (call : tool_call) : M response :=
  match call with
  | Call_query_database q => fmap Rows (query_database K q)
  | Call_get_customer_info s => fmap Rows (get_customer_info K s)
  | Call_get_open_tickets p => fmap Rows (get_open_tickets K p)
  | Call_get_at_risk_customers m => fmap Rows (get_at_risk_customers K m)
  | Call_get_customer_health_score n =>
      fmap Object (get_customer_health_score K n)
  end.

(** *** Server startup: the connection test of [__main__]

    [conn = get_db_connection(); conn.close()].  It returns [false] where
    the script calls [exit(1)]. *)
Definition startup_probe (K : Connector) : M bool :=
  fun tr =>
    match (get_db_connection K ;;; emit Close) tr with
    | (Return _, tr') => (Return true, tr')
    | (Raise _, tr') => (Return false, tr')
    end.

(** Occurrences of an event in a history. *)
Definition is_close (ev : event) : bool :=
  match ev with Close => true | _ => false end.

Definition is_connect (ev : event) : bool :=
  match ev with Connect => true | _ => false end.

Definition is_transaction_end (ev : event) : bool :=
  match ev with Commit | Rollback => true | _ => false end.

Definition count (p : event -> bool) (tr : list event) : nat :=
  List.length (filter p tr).

(** The statements a history sent to the store. *)
Fixpoint sent_sql (tr : list event) : list string :=
  match tr with
  | [] => []
  | Execute sql _ :: tr' => sql :: sent_sql tr'
  | _ :: tr' => sent_sql tr'
  end.


(** ** A reference store in closed form

    Two tables with the columns the statements refer to, and the rows of
    three statements of the catalog over them written out by hand, for the
    examples.  The declared schema is not part of [server.py]: here every
    column but [resolved_at] is taken as [NOT NULL] and [id] as the key of
    [customers], and [c_other] holds whatever further columns [c.*]
    returns.  Timestamps are seconds, [now] is the value of [NOW()].  The
    statements themselves are parsed and evaluated further down, over
    tables that make none of these assumptions. *)

Record customer : Type := {
  c_id : Z;
  c_name : string;
  c_email : string;
  c_country : string;
  c_subscription_tier : string;
  c_mrr : Z;
  c_created_at : Z;
  c_other : row
}.

Record ticket : Type := {
  t_id : Z;
  t_customer_id : Z;
  t_subject : string;
  t_status : string;
  t_priority : string;
  t_created_at : Z;
  t_resolved_at : option Z
}.

Record database : Type := {
  customers : list customer;
  support_tickets : list ticket;
  now : Z
}.

(** *** LIKE and ILIKE *)

Definition is_upper (c : ascii) : bool :=
  let n := N_of_ascii c in ((65 <=? n) && (n <=? 90))%N.

Definition lower_char (c : ascii) : ascii :=
  if is_upper c then ascii_of_N (N_of_ascii c + 32) else c.

Fixpoint lower (s : string) : string :=
  match s with
  | EmptyString => EmptyString
  | String c s' => String (lower_char c) (lower s')
  end.

(** [s LIKE p]: [%] stands for any run of characters, [_] for any one
    character, a backslash makes the next pattern character literal.  A
    pattern ending in a lone backslash, an error in PostgreSQL, matches
    nothing here; no pattern of the catalog ends that way, since
    [wildcard_wrap] always ends in [%]. *)
Fixpoint like (p s : string) {struct p} : bool :=
  match p with
  | EmptyString =>
      match s with EmptyString => true | String _ _ => false end
  | String "%" p' =>
      (fix any (s : string) : bool :=
         like p' s ||
         match s with
         | EmptyString => false
         | String _ s' => any s'
         end) s
  | String "_" p' =>
      match s with
      | EmptyString => false
      | String _ s' => like p' s'
      end
  | String "\" EmptyString => false
  | String "\" (String c p') =>
      match s with
      | EmptyString => false
      | String d s' => Ascii.eqb c d && like p' s'
      end
  | String c p' =>
      match s with
      | EmptyString => false
      | String d s' => Ascii.eqb c d && like p' s'
      end
  end.

(** [s ILIKE p] *)
Definition ilike (s p : string) : bool := like (lower p) (lower s).

(** *** ORDER BY: an insertion sort

    [ORDER BY] promises no order among the rows it does not tell apart;
    this store leaves them in the order of the table. *)

Fixpoint insert_by {A} (before : A -> A -> bool) (x : A) (l : list A)
  : list A :=
  match l with
  | [] => [x]
  | y :: l' =>
      if before x y then x :: y :: l' else y :: insert_by before x l'
  end.

Fixpoint sort_by {A} (before : A -> A -> bool) (l : list A) : list A :=
  match l with
  | [] => []
  | x :: l' => insert_by before x (sort_by before l')
  end.

(** [EXTRACT(DAY FROM a - b)] *)
Definition extract_day (a b : Z) : Z := Z.quot (a - b) 86400.

Definition count_if {A} (p : A -> bool) (l : list A) : Z :=
  Z.of_nat (List.length (filter p l)).

Definition is_open_status (status : string) : bool :=
  (status =? "Open") || (status =? "In Progress").

(** [MAX(t.created_at)], NULL over no ticket. *)
Definition max_created_at (ts : list ticket) : value :=
  match ts with
  | [] => VNull
  | t :: ts' =>
      VTimestamp (fold_left Z.max (map t_created_at ts') (t_created_at t))
  end.

(** The tickets a customer is joined with: [ON c.id = t.customer_id]. *)
Definition tickets_of (db : database) (c : customer) : list ticket :=
  filter (fun t => (c_id c =? t_customer_id t)%Z) (support_tickets db).

(** *** The statement of get_open_tickets *)

Definition joined (db : database) : list (ticket * customer) :=
  flat_map
    (fun t =>
       map (pair t)
         (filter (fun c => (t_customer_id t =? c_id c)%Z) (customers db)))
    (support_tickets db).

Definition priority_is (priority : option string) (t : ticket) : bool :=
  match priority with
  | None => true
  | Some p => (t_priority t =? p)%string
  end.

(** [ORDER BY t.priority DESC, t.created_at ASC], text compared byte by
    byte. *)
Definition open_ticket_before (x y : ticket * customer) : bool :=
  match String.compare (t_priority (fst y)) (t_priority (fst x)) with
  | Lt => true
  | Gt => false
  | Eq => (t_created_at (fst x) <=? t_created_at (fst y))%Z
  end.

Definition open_ticket_row (now : Z) (tc : ticket * customer) : row :=
  let (t, c) := tc in
  [("id", VInt (t_id t));
   ("subject", VText (t_subject t));
   ("status", VText (t_status t));
   ("priority", VText (t_priority t));
   ("created_at", VTimestamp (t_created_at t));
   ("customer_name", VText (c_name c));
   ("subscription_tier", VText (c_subscription_tier c));
   ("mrr", VInt (c_mrr c));
   ("country", VText (c_country c));
   ("days_open", VInt (extract_day now (t_created_at t)))].

Definition open_ticket_rows (db : database) (priority : option string)
  : list row :=
  map (open_ticket_row (now db))
    (sort_by open_ticket_before
       (filter
          (fun tc => is_open_status (t_status (fst tc))
                     && priority_is priority (fst tc))
          (joined db))).

(** *** The statement of get_customer_info *)

Definition customer_columns (c : customer) : row :=
  ([("id", VInt (c_id c));
    ("name", VText (c_name c));
    ("email", VText (c_email c));
    ("country", VText (c_country c));
    ("subscription_tier", VText (c_subscription_tier c));
    ("mrr", VInt (c_mrr c));
    ("created_at", VTimestamp (c_created_at c))] ++ c_other c)%list.

Definition customer_info_row (db : database) (c : customer) : row :=
  let ts := tickets_of db c in
  (customer_columns c ++
   [("total_tickets", VInt (count_if (fun _ => true) ts));
    ("open_tickets", VInt (count_if (fun t => t_status t =? "Open") ts));
    ("in_progress_tickets",
      VInt (count_if (fun t => t_status t =? "In Progress") ts));
    ("high_priority_tickets",
      VInt (count_if (fun t => t_priority t =? "High") ts));
    ("last_ticket_date", max_created_at ts)])%list.

(** [ORDER BY c.mrr DESC] *)
Definition mrr_before (x y : customer) : bool := (c_mrr y <=? c_mrr x)%Z.

(** One group per customer: [c.*] under [GROUP BY c.id] is accepted only
    when [id] is the key of [customers]. *)
Definition customer_info_rows (db : database) (p1 p2 : string) : list row :=
  map (customer_info_row db)
    (sort_by mrr_before
       (filter (fun c => ilike (c_name c) p1 || ilike (c_email c) p2)
          (customers db))).

(** *** The statement of get_customer_health_score *)

(** [AVG(EXTRACT(DAY FROM t.resolved_at - t.created_at))]: the sum over the
    count, NULL when no ticket is resolved. *)
Definition resolution_days (t : ticket) : list Z :=
  match t_resolved_at t with
  | Some r => [extract_day r (t_created_at t)]
  | None => []
  end.

Definition avg_resolution_days (ts : list ticket) : value :=
  let days := flat_map resolution_days ts in
  match Pos.of_nat (List.length days), days with
  | _, [] => VNull
  | n, _ :: _ => VRatio (fold_left Z.add days 0%Z) n
  end.

Definition open_count (ts : list ticket) : Z :=
  count_if (fun t => is_open_status (t_status t)) ts.

Definition high_priority_count (ts : list ticket) : Z :=
  count_if (fun t => t_priority t =? "High") ts.

Definition health_score_row (db : database) (c : customer) : row :=
  let ts := tickets_of db c in
  [("id", VInt (c_id c));
   ("name", VText (c_name c));
   ("subscription_tier", VText (c_subscription_tier c));
   ("mrr", VInt (c_mrr c));
   ("account_age_days", VInt (extract_day (now db) (c_created_at c)));
   ("total_tickets", VInt (count_if (fun _ => true) ts));
   ("open_tickets", VInt (open_count ts));
   ("high_priority_tickets", VInt (high_priority_count ts));
   ("avg_resolution_days", avg_resolution_days ts);
   ("health_score",
     VInt (Z.of_N (health_score (Z.to_N (open_count ts))
                                (Z.to_N (high_priority_count ts)))))].

(** The statement has no [ORDER BY]: the rows come in an order of the
    store's choosing, here the order of the table. *)
Definition health_score_rows (db : database) (p : string) : list row :=
  map (health_score_row db)
    (filter (fun c => ilike (c_name c) p) (customers db)).

(** *** The reference store as a connector

    It answers the statements above and refuses every other text. *)
Definition pg_execute (db : database) (sql : string) (params : list value)
  : exn + list row :=
  if sql =? customer_info_query then
    match params with
    | [VText p1; VText p2] => inr (customer_info_rows db p1 p2)
    | _ => inl (DatabaseError "parameters do not fit the statement")
    end
  else if sql =? open_tickets_query ++ order_clause then
    match params with
    | [] => inr (open_ticket_rows db None)
    | _ => inl (DatabaseError "parameters do not fit the statement")
    end
  else if sql =? open_tickets_query ++ priority_clause ++ order_clause then
    match params with
    | [VText p] => inr (open_ticket_rows db (Some p))
    | _ => inl (DatabaseError "parameters do not fit the statement")
    end
  else if sql =? health_score_query then
    match params with
    | [VText p] => inr (health_score_rows db p)
    | _ => inl (DatabaseError "parameters do not fit the statement")
    end
  else inl (DatabaseError "statement outside the reference store").

Definition pg (db : database) : Connector :=
  {| connect := None; execute := pg_execute db |}.

(** A store whose connection cannot be established. *)
Definition unreachable : Connector :=
  {| connect := Some (DatabaseError "could not connect to server");
     execute := fun _ _ => inl (DatabaseError "no connection") |}.

(** A connector that hands back a fixed outcome for every statement. *)
Definition canned (outcome : exn + list row) : Connector :=
  {| connect := None; execute := fun _ _ => outcome |}.

(** *** A small data set for the examples *)

Definition asml : customer :=
  {| c_id := 1%Z; c_name := "ASML"; c_email := "ops@asml.com";
     c_country := "NL"; c_subscription_tier := "Enterprise";
     c_mrr := 50000%Z; c_created_at := 0%Z; c_other := [] |}.

Definition accenture : customer :=
  {| c_id := 2%Z; c_name := "Accenture"; c_email := "it@accenture.com";
     c_country := "IE"; c_subscription_tier := "Pro";
     c_mrr := 30000%Z; c_created_at := 86400%Z; c_other := [] |}.

Definition ticket1 : ticket :=
  {| t_id := 10%Z; t_customer_id := 1%Z; t_subject := "Login fails";
     t_status := "Open"; t_priority := "High";
     t_created_at := 172800%Z; t_resolved_at := None |}.

Definition ticket2 : ticket :=
  {| t_id := 11%Z; t_customer_id := 2%Z; t_subject := "Slow export";
     t_status := "In Progress"; t_priority := "Low";
     t_created_at := 259200%Z; t_resolved_at := None |}.

Definition ticket3 : ticket :=
  {| t_id := 12%Z; t_customer_id := 1%Z; t_subject := "Invoice typo";
     t_status := "Resolved"; t_priority := "High";
     t_created_at := 100000%Z; t_resolved_at := Some 300000%Z |}.

Definition sample_db : database :=
  {| customers := [asml; accenture];
     support_tickets := [ticket1; ticket2; ticket3];
     now := 864000%Z |}.

(** [same_fixed_tool c1 c2]: two calls of the same fixed tool whose
    optional arguments have the same truth value. *)
Definition same_fixed_tool (c1 c2 : tool_call) : bool :=
  match c1, c2 with
  | Call_get_customer_info _, Call_get_customer_info _ => true
  | Call_get_open_tickets p1, Call_get_open_tickets p2 =>
      Bool.eqb (truthy p1) (truthy p2)
  | Call_get_at_risk_customers _, Call_get_at_risk_customers _ => true
  | Call_get_customer_health_score _, Call_get_customer_health_score _ =>
      true
  | _, _ => false
  end.

(** ** Resources

    [get_database_schema] and [get_table_list] format cells of the rows
    into text.  The text of a string cell is the string, of [None] the
    word None, of an integer its decimal digits; Python's [str] of a float,
    a [Decimal] or a [datetime], and [==] between numbers of different
    kinds, are not modelled and stay parameters. *)

(** The line feed. *)
Definition nl : string := String "010"%char EmptyString.

Definition str_int (n : Z) : string := NilZero.string_of_int (Z.to_int n).

Section Cells.

Variable str_other : value -> string.
Variable num_eq : value -> value -> bool.

(** [str(v)], which is also what an f-string writes for [{v}]. *)
Definition str_value (v : value) : string :=
  match v with
  | VNull => "None"
  | VText s => s
  | VInt n => str_int n
  | _ => str_other v
  end.

(** [a == b] on cells. *)
Definition cell_eqb (a b : value) : bool :=
  match a, b with
  | VNull, VNull => true
  | VText s, VText t => (s =? t)%string
  | VTimestamp s, VTimestamp t => (s =? t)%Z
  | VInt m, VInt n => (m =? n)%Z
  | VInt _, (VFloat _ | VRatio _ _) => num_eq a b
  | (VFloat _ | VRatio _ _), (VInt _ | VFloat _ | VRatio _ _) =>
      num_eq a b
  | _, _ => false
  end.

(** *** get_database_schema *)

Definition schema_query : string :=
  "
        SELECT 
            table_name,
            column_name,
            data_type,
            is_nullable
        FROM information_schema.columns
        WHERE table_schema = 'public'
        ORDER BY table_name, ordinal_position
    ".

Definition schema_heading : string := "# Database Schema" ++ nl ++ nl.

Definition table_heading (table : value) : string :=
  nl ++ "## Table: " ++ str_value table ++ nl ++ nl.

Definition nullable_text (is_nullable : value) : string :=
  if cell_eqb is_nullable (VText "YES") then "NULL" else "NOT NULL".

Definition column_line (column_name data_type : value) (nullable : string)
  : string :=
  "- " ++ str_value column_name ++ ": " ++ str_value data_type
  ++ " (" ++ nullable ++ ")" ++ nl.

(** The [for row in results] loop, with its two variables. *)
Fixpoint schema_loop (results : list row) (current_table : value)
  (schema_text : string) : result string :=
  match results with
  | [] => Return schema_text
  | row :: rest =>
      match lookup "table_name" row with
      | None => Raise (KeyError "table_name")
      | Some table_name =>
          let (current_table, schema_text) :=
            if negb (cell_eqb table_name current_table)
            then (table_name, schema_text ++ table_heading table_name)
            else (current_table, schema_text) in
          match lookup "is_nullable" row with
          | None => Raise (KeyError "is_nullable")
          | Some is_nullable =>
              let nullable := nullable_text is_nullable in
              match lookup "column_name" row with
              | None => Raise (KeyError "column_name")
              | Some column_name =>
                  match lookup "data_type" row with
                  | None => Raise (KeyError "data_type")
                  | Some data_type =>
                      schema_loop rest current_table
                        (schema_text
                         ++ column_line column_name data_type nullable)
                  end
              end
          end
      end
  end.

Definition get_database_schema (K : Connector) : M string :=
  with_connection_cursor K
    (cur <- cur_execute K schema_query [] ;;
     let results := fetchall cur in
     lift (schema_loop results VNull schema_heading)).

(** *** get_table_list *)

Definition table_list_query : string :=
  "
        SELECT table_name, 
               pg_size_pretty(pg_total_relation_size(quote_ident(table_name)::regclass)) as size
        FROM information_schema.tables
        WHERE table_schema = 'public'
        ORDER BY table_name
    ".

Definition table_line (table_name size : value) : string :=
  "- " ++ str_value table_name ++ " (" ++ str_value size ++ ")".

(** The list comprehension over [results]. *)
Fixpoint table_lines (results : list row) : result (list string) :=
  match results with
  | [] => Return []
  | r :: rest =>
      match lookup "table_name" r with
      | None => Raise (KeyError "table_name")
      | Some table_name =>
          match lookup "size" r with
          | None => Raise (KeyError "size")
          | Some size =>
              match table_lines rest with
              | Raise e => Raise e
              | Return lines =>
                  Return (table_line table_name size :: lines)
              end
          end
      end
  end.

Definition get_table_list (K : Connector) : M string :=
  with_connection_cursor K
    (cur <- cur_execute K table_list_query [] ;;
     let results := fetchall cur in
     lines <- lift (table_lines results) ;;
     ret (String.concat nl lines)).

(** The resources registered with [@mcp.resource(uri)]. *)
Inductive resource : Type :=
| Resource_schema
| Resource_tables.

Definition resource_uri (r : resource) : string :=
  match r with
  | Resource_schema => "postgres://schema"
  | Resource_tables => "postgres://tables"
  end.

Definition read_resource (K : Connector) (r : resource) : M string :=
  match r with
  | Resource_schema => get_database_schema K
  | Resource_tables => get_table_list K
  end.

(** The specification of the schema document: the rows taken table by
    table, a heading and then one line per column. *)
Definition schema_column : Type := (string * string * string)%type.

Definition schema_row (table : string) (col : schema_column) : row :=
  let '(column_name, data_type, is_nullable) := col in
  [("table_name", VText table);
   ("column_name", VText column_name);
   ("data_type", VText data_type);
   ("is_nullable", VText is_nullable)].

Definition render_column (col : schema_column) : string :=
  let '(column_name, data_type, is_nullable) := col in
  "- " ++ column_name ++ ": " ++ data_type
  ++ " (" ++ (if (is_nullable =? "YES")%string then "NULL" else "NOT NULL")
  ++ ")" ++ nl.

(** The texts one after the other. *)
Definition join_all (texts : list string) : string :=
  fold_right String.append "" texts.

Definition render_table (t : string * list schema_column) : string :=
  nl ++ "## Table: " ++ fst t ++ nl ++ nl
  ++ join_all (map render_column (snd t)).

Definition rows_of_table (t : string * list schema_column) : list row :=
  map (schema_row (fst t)) (snd t).

(** Consecutive tables carry different names and none is empty. *)
Fixpoint well_grouped (tables : list (string * list schema_column))
  : Prop :=
  match tables with
  | [] => True
  | t :: rest =>
      snd t <> [] /\
      match rest with
      | [] => True
      | u :: _ => fst t <> fst u
      end /\
      well_grouped rest
  end.

(** A row has the four columns the schema loop reads. *)
Definition has_schema_keys (r : row) : bool :=
  match lookup "table_name" r, lookup "is_nullable" r,
        lookup "column_name" r, lookup "data_type" r with
  | Some _, Some _, Some _, Some _ => true
  | _, _, _, _ => false
  end.

(** The line of the table list for a row, [None] when a column is
    missing. *)
Definition table_line_of (r : row) : option string :=
  match lookup "table_name" r, lookup "size" r with
  | Some table_name, Some size => Some (table_line table_name size)
  | _, _ => None
  end.

End Cells.

(** A rendering of the cells the model leaves open, for the examples. *)
Definition sample_str_other (v : value) : string := "?".
Definition sample_num_eq (a b : value) : bool := false.

Definition sample_schema : list (string * list schema_column) :=
  [("customers", [("id", "integer", "NO"); ("name", "text", "YES")]);
   ("support_tickets", [("id", "integer", "NO")])].

Definition sample_tables : list row :=
  [[("table_name", VText "customers"); ("size", VText "48 kB")];
   [("table_name", VText "support_tickets"); ("size", VText "64 kB")]].

(** ** Patterns without wildcards *)

Definition like_special (c : ascii) : bool :=
  Ascii.eqb c "%" || Ascii.eqb c "_" || Ascii.eqb c "\".

Fixpoint literal (s : string) : bool :=
  match s with
  | EmptyString => true
  | String c s' => negb (like_special c) && literal s'
  end.

Fixpoint all_space (s : string) : bool :=
  match s with
  | EmptyString => true
  | String c s' => isspace c && all_space s'
  end.

(** The place of a keyword in [FORBIDDEN_KEYWORDS]: the keywords before
    it. *)
Fixpoint keywords_before (keyword : string) (keywords : list string)
  : list string :=
  match keywords with
  | [] => []
  | k :: rest =>
      if (k =? keyword)%string then [] else k :: keywords_before keyword rest
  end.

Definition is_commit (ev : event) : bool :=
  match ev with Commit => true | _ => false end.

Definition is_rollback (ev : event) : bool :=
  match ev with Rollback => true | _ => false end.

Definition is_open_cursor (ev : event) : bool :=
  match ev with OpenCursor => true | _ => false end.

Definition is_close_cursor (ev : event) : bool :=
  match ev with CloseCursor => true | _ => false end.

(** A text whose first, or last, character is not white space. *)
Definition starts_solid (r : string) : bool :=
  match r with
  | EmptyString => false
  | String c _ => negb (isspace c)
  end.

Fixpoint ends_solid (r : string) : bool :=
  match r with
  | EmptyString => false
  | String c EmptyString => negb (isspace c)
  | String _ r' => ends_solid r'
  end.

(** ** The SQL of the catalog, read from the text the tools send

    A lexer, a parser and an evaluator for the part of SQL the statements
    of [server.py] are written in.  A statement is evaluated on a store of
    tables whose rows map column names to values, NULL included; an
    operator applied to a value of the wrong kind is an error, as is a
    column or a table that does not exist.  The order of the rows is not
    modelled: [ORDER BY] fixes it only up to ties and collation, and a
    connector answers with the rows in an order of its choosing. *)

(** *** Tokens *)

Inductive token : Type :=
| TWord (w : string)
| TText (s : string)
| TNum (n : Z)
| TParam (i : nat)
| TSym (s : string).

Definition is_digit (c : ascii) : bool :=
  let n := N_of_ascii c in ((48 <=? n) && (n <=? 57))%N.

Fixpoint all_digits (s : string) : bool :=
  match s with
  | EmptyString => true
  | String c s' => is_digit c && all_digits s'
  end.

Fixpoint digits_value (s : string) (acc : Z) : Z :=
  match s with
  | EmptyString => acc
  | String c s' => digits_value s' (10 * acc + Z.of_N (N_of_ascii c - 48))
  end.

Definition word_token (w : string) : token :=
  if all_digits w then TNum (digits_value w 0) else TWord w.

Definition flush_word (w : string) (out : list token) : list token :=
  match w with
  | EmptyString => out
  | String _ _ => word_token w :: out
  end.

(** The two-character operators. *)
Definition pair_symbol (c d : ascii) : bool :=
  (Ascii.eqb c "<" && Ascii.eqb d "=") ||
  (Ascii.eqb c ">" && Ascii.eqb d "=") ||
  (Ascii.eqb c "<" && Ascii.eqb d ">") ||
  (Ascii.eqb c ":" && Ascii.eqb d ":").

(** [lex s lit w np out]: [lit] is the text literal being read, [w] the
    word being read, [np] the number of [%s] seen, [out] the tokens so far,
    last first.  Words are folded to lower case, as unquoted identifiers
    and keywords are. *)
Fixpoint lex (s : string) (lit : option string) (w : string) (np : nat)
  (out : list token) : option (list token) :=
  match s with
  | EmptyString =>
      match lit with
      | Some _ => None
      | None => Some (rev (flush_word w out))
      end
  | String c s' =>
      match lit with
      | Some acc =>
          if Ascii.eqb c "'" then lex s' None "" np (TText acc :: out)
          else lex s' (Some (acc ++ String c "")) "" np out
      | None =>
          if is_word_char c
          then lex s' None (w ++ String (lower_char c) "") np out
          else
            let out := flush_word w out in
            if isspace c then lex s' None "" np out
            else if Ascii.eqb c "'" then lex s' (Some "") "" np out
            else
              match s' with
              | String d s'' =>
                  if Ascii.eqb c "%" && Ascii.eqb d "s"
                  then lex s'' None "" (S np) (TParam np :: out)
                  else if pair_symbol c d
                  then lex s'' None "" np
                         (TSym (String c (String d "")) :: out)
                  else lex s' None "" np (TSym (String c "") :: out)
              | EmptyString => lex s' None "" np (TSym (String c "") :: out)
              end
      end
  end.

Definition tokenize (sql : string) : option (list token) :=
  lex sql None "" 0 [].

(** *** Syntax *)

Inductive cmp_op : Type := OpEq | OpLe | OpGe.

Inductive expr : Type :=
| ECol (qualifier : option string) (column : string)
| EText (s : string)
| EInt (n : Z)
| ENull
| EParam (i : nat)
| ENow
| ESub (a b : expr)
| EExtractDay (a : expr)
| ECase (c : cond) (a : expr) (otherwise : expr)
| ECount (a : expr)
| EMax (a : expr)
| EAvg (a : expr)
with cond : Type :=
| CCmp (op : cmp_op) (a b : expr)
| CIn (a : expr) (items : list value)
| CILike (a pattern : expr)
| CAnd (a b : cond)
| COr (a b : cond).

Inductive item : Type :=
| IStar (qualifier : option string)
| IExpr (e : expr) (alias : option string).

Inductive join_kind : Type := InnerJoin | LeftJoin.

Record join : Type := {
  join_kind_of : join_kind;
  join_table : string;
  join_alias : string;
  join_on : cond
}.

Record select : Type := {
  sel_items : list item;
  sel_table : string;
  sel_alias : string;
  sel_join : option join;
  sel_where : option cond;
  sel_group : list expr;
  sel_order : list (expr * bool)
}.

Record statement : Type := {
  st_with : option (string * select);
  st_body : select
}.

(** *** Parser: recursive descent, [n] bounding the depth *)

Notation "' p <-? c ;; k" :=
  (match c with Some p => k | None => None end)
  (at level 61, p pattern, c at next level, right associativity).
Notation "x <-? c ;; k" :=
  (match c with Some x => k | None => None end)
  (at level 61, c at next level, right associativity).

Definition is_word (w : string) (t : token) : bool :=
  match t with TWord w' => (w' =? w)%string | _ => false end.

Definition is_sym (s : string) (t : token) : bool :=
  match t with TSym s' => (s' =? s)%string | _ => false end.

Definition skip_word (w : string) (ts : list token) : option (list token) :=
  match ts with
  | t :: r => if is_word w t then Some r else None
  | [] => None
  end.

Definition skip_sym (s : string) (ts : list token) : option (list token) :=
  match ts with
  | t :: r => if is_sym s t then Some r else None
  | [] => None
  end.

Definition next_is_word (w : string) (ts : list token) : bool :=
  match ts with t :: _ => is_word w t | [] => false end.

Definition next_is_sym (s : string) (ts : list token) : bool :=
  match ts with t :: _ => is_sym s t | [] => false end.

Definition reserved_words : list string :=
  ["select"; "from"; "where"; "join"; "left"; "on"; "group"; "order"; "by";
   "as"; "and"; "or"; "in"; "ilike"; "case"; "when"; "then"; "else"; "end";
   "asc"; "desc"; "with"].

Definition reserved (w : string) : bool :=
  existsb (String.eqb w) reserved_words.

Fixpoint parse_literals (n : nat) (ts : list token)
  : option (list value * list token) :=
  match n with
  | O => None
  | S n =>
      match ts with
      | TText s :: r =>
          if next_is_sym "," r
          then '(vs, r') <-? parse_literals n (tl r) ;; Some (VText s :: vs, r')
          else r' <-? skip_sym ")" r ;; Some ([VText s], r')
      | TNum z :: r =>
          if next_is_sym "," r
          then '(vs, r') <-? parse_literals n (tl r) ;; Some (VInt z :: vs, r')
          else r' <-? skip_sym ")" r ;; Some ([VInt z], r')
      | _ => None
      end
  end.

Fixpoint parse_expr (n : nat) (ts : list token) {struct n}
  : option (expr * list token) :=
  match n with
  | O => None
  | S n =>
      '(a, r) <-? parse_primary n ts ;;
      if next_is_sym "-" r
      then '(b, r') <-? parse_expr n (tl r) ;; Some (ESub a b, r')
      else Some (a, r)
  end
with parse_primary (n : nat) (ts : list token) {struct n}
  : option (expr * list token) :=
  match n with
  | O => None
  | S n =>
      match ts with
      | TText s :: r => Some (EText s, r)
      | TNum z :: r => Some (EInt z, r)
      | TParam i :: r => Some (EParam i, r)
      | TWord w :: r =>
          if (w =? "now")%string then
            r1 <-? skip_sym "(" r ;; r2 <-? skip_sym ")" r1 ;; Some (ENow, r2)
          else if (w =? "count")%string then
            r1 <-? skip_sym "(" r ;; '(a, r2) <-? parse_expr n r1 ;;
            r3 <-? skip_sym ")" r2 ;; Some (ECount a, r3)
          else if (w =? "max")%string then
            r1 <-? skip_sym "(" r ;; '(a, r2) <-? parse_expr n r1 ;;
            r3 <-? skip_sym ")" r2 ;; Some (EMax a, r3)
          else if (w =? "avg")%string then
            r1 <-? skip_sym "(" r ;; '(a, r2) <-? parse_expr n r1 ;;
            r3 <-? skip_sym ")" r2 ;; Some (EAvg a, r3)
          else if (w =? "extract")%string then
            r1 <-? skip_sym "(" r ;; r2 <-? skip_word "day" r1 ;;
            r3 <-? skip_word "from" r2 ;; '(a, r4) <-? parse_expr n r3 ;;
            r5 <-? skip_sym ")" r4 ;; Some (EExtractDay a, r5)
          else if (w =? "case")%string then parse_case n r
          else if reserved w then None
          else
            match r with
            | dot :: TWord c :: r' =>
                if is_sym "." dot then Some (ECol (Some w) c, r')
                else Some (ECol None w, r)
            | _ => Some (ECol None w, r)
            end
      | _ => None
      end
  end
with parse_case (n : nat) (ts : list token) {struct n}
  : option (expr * list token) :=
  match n with
  | O => None
  | S n =>
      if next_is_word "when" ts then
        '(c, r1) <-? parse_cond n (tl ts) ;;
        r2 <-? skip_word "then" r1 ;;
        '(a, r3) <-? parse_expr n r2 ;;
        '(b, r4) <-? parse_case n r3 ;;
        Some (ECase c a b, r4)
      else if next_is_word "else" ts then
        '(a, r1) <-? parse_expr n (tl ts) ;;
        r2 <-? skip_word "end" r1 ;;
        Some (a, r2)
      else
        r1 <-? skip_word "end" ts ;; Some (ENull, r1)
  end
with parse_cond (n : nat) (ts : list token) {struct n}
  : option (cond * list token) :=
  match n with
  | O => None
  | S n =>
      '(a, r) <-? parse_cond_and n ts ;;
      if next_is_word "or" r
      then '(b, r') <-? parse_cond n (tl r) ;; Some (COr a b, r')
      else Some (a, r)
  end
with parse_cond_and (n : nat) (ts : list token) {struct n}
  : option (cond * list token) :=
  match n with
  | O => None
  | S n =>
      '(a, r) <-? parse_cond_atom n ts ;;
      if next_is_word "and" r
      then '(b, r') <-? parse_cond_and n (tl r) ;; Some (CAnd a b, r')
      else Some (a, r)
  end
with parse_cond_atom (n : nat) (ts : list token) {struct n}
  : option (cond * list token) :=
  match n with
  | O => None
  | S n =>
      '(a, r) <-? parse_expr n ts ;;
      if next_is_sym "=" r then
        '(b, r') <-? parse_expr n (tl r) ;; Some (CCmp OpEq a b, r')
      else if next_is_sym "<=" r then
        '(b, r') <-? parse_expr n (tl r) ;; Some (CCmp OpLe a b, r')
      else if next_is_sym ">=" r then
        '(b, r') <-? parse_expr n (tl r) ;; Some (CCmp OpGe a b, r')
      else if next_is_word "ilike" r then
        '(b, r') <-? parse_expr n (tl r) ;; Some (CILike a b, r')
      else if next_is_word "in" r then
        r1 <-? skip_sym "(" (tl r) ;;
        '(vs, r2) <-? parse_literals n r1 ;;
        Some (CIn a vs, r2)
      else None
  end.

Definition parse_item (n : nat) (ts : list token)
  : option (item * list token) :=
  match ts with
  | star :: r =>
      if is_sym "*" star then Some (IStar None, r)
      else
        match ts with
        | TWord q :: dot :: star' :: r' =>
            if is_sym "." dot && is_sym "*" star'
            then Some (IStar (Some q), r')
            else
              '(e, r1) <-? parse_expr n ts ;;
              if next_is_word "as" r1 then
                match tl r1 with
                | TWord a :: r2 => Some (IExpr e (Some a), r2)
                | _ => None
                end
              else Some (IExpr e None, r1)
        | _ =>
            '(e, r1) <-? parse_expr n ts ;;
            if next_is_word "as" r1 then
              match tl r1 with
              | TWord a :: r2 => Some (IExpr e (Some a), r2)
              | _ => None
              end
            else Some (IExpr e None, r1)
        end
  | [] => None
  end.

Fixpoint parse_items (n : nat) (ts : list token)
  : option (list item * list token) :=
  match n with
  | O => None
  | S n =>
      '(i, r) <-? parse_item n ts ;;
      if next_is_sym "," r
      then '(is_, r') <-? parse_items n (tl r) ;; Some (i :: is_, r')
      else Some ([i], r)
  end.

Fixpoint parse_exprs (n : nat) (ts : list token)
  : option (list expr * list token) :=
  match n with
  | O => None
  | S n =>
      '(e, r) <-? parse_expr n ts ;;
      if next_is_sym "," r
      then '(es, r') <-? parse_exprs n (tl r) ;; Some (e :: es, r')
      else Some ([e], r)
  end.

Fixpoint parse_order (n : nat) (ts : list token)
  : option (list (expr * bool) * list token) :=
  match n with
  | O => None
  | S n =>
      '(e, r) <-? parse_expr n ts ;;
      let (desc, r) :=
        if next_is_word "desc" r then (true, tl r)
        else if next_is_word "asc" r then (false, tl r)
        else (false, r) in
      if next_is_sym "," r
      then '(es, r') <-? parse_order n (tl r) ;; Some ((e, desc) :: es, r')
      else Some ([(e, desc)], r)
  end.

(** A table with its alias; without one the table name stands for it. *)
Definition parse_table (ts : list token)
  : option (string * string * list token) :=
  match ts with
  | TWord t :: TWord a :: r =>
      if reserved a then Some (t, t, TWord a :: r) else Some (t, a, r)
  | TWord t :: r => Some (t, t, r)
  | _ => None
  end.

Definition parse_join (n : nat) (ts : list token)
  : option (option join * list token) :=
  let kind_rest :=
    if next_is_word "left" ts
    then (if next_is_word "join" (tl ts)
          then Some (LeftJoin, tl (tl ts)) else None)
    else if next_is_word "join" ts then Some (InnerJoin, tl ts)
    else None in
  match kind_rest with
  | None => Some (None, ts)
  | Some (kind, r) =>
      '(t, a, r1) <-? parse_table r ;;
      r2 <-? skip_word "on" r1 ;;
      '(c, r3) <-? parse_cond n r2 ;;
      Some (Some {| join_kind_of := kind; join_table := t;
                    join_alias := a; join_on := c |}, r3)
  end.

Definition parse_select (n : nat) (ts : list token)
  : option (select * list token) :=
  r0 <-? skip_word "select" ts ;;
  '(items, r1) <-? parse_items n r0 ;;
  r2 <-? skip_word "from" r1 ;;
  '(t, a, r3) <-? parse_table r2 ;;
  '(j, r4) <-? parse_join n r3 ;;
  '(w, r5) <-?
    (if next_is_word "where" r4
     then '(c, r) <-? parse_cond n (tl r4) ;; Some (Some c, r)
     else Some (None, r4)) ;;
  '(g, r6) <-?
    (if next_is_word "group" r5
     then r <-? skip_word "by" (tl r5) ;; parse_exprs n r
     else Some ([], r5)) ;;
  '(o, r7) <-?
    (if next_is_word "order" r6
     then r <-? skip_word "by" (tl r6) ;; parse_order n r
     else Some ([], r6)) ;;
  Some ({| sel_items := items; sel_table := t; sel_alias := a;
           sel_join := j; sel_where := w; sel_group := g;
           sel_order := o |}, r7).

Definition parse_tokens (ts : list token) : option statement :=
  let n := List.length ts in
  if next_is_word "with" ts then
    match tl ts with
    | TWord name :: r0 =>
        r1 <-? skip_word "as" r0 ;;
        r2 <-? skip_sym "(" r1 ;;
        '(q, r3) <-? parse_select n r2 ;;
        r4 <-? skip_sym ")" r3 ;;
        '(body, r5) <-? parse_select n r4 ;;
        match r5 with
        | [] => Some {| st_with := Some (name, q); st_body := body |}
        | _ :: _ => None
        end
    | _ => None
    end
  else
    '(body, r) <-? parse_select n ts ;;
    match r with
    | [] => Some {| st_with := None; st_body := body |}
    | _ :: _ => None
    end.

Definition parse_sql (sql : string) : option statement :=
  ts <-? tokenize sql ;; parse_tokens ts.

(** *** Evaluation *)

Notation "' p <-! c ;; k" :=
  (match c with inr p => k | inl e => inl e end)
  (at level 61, p pattern, c at next level, right associativity).
Notation "x <-! c ;; k" :=
  (match c with inr x => k | inl e => inl e end)
  (at level 61, c at next level, right associativity).

(** The state of the store: its tables and the value of [NOW()]. *)
Record store : Type := {
  st_tables : list (string * list row);
  st_now : Z
}.

(** A row of the join: each alias with its row, [None] for the side a left
    join found no partner for. *)
Definition env : Type := list (string * option row).

(** What an expression yields: a value, or the difference of two
    timestamps. *)
Inductive sval : Type :=
| SVal (v : value)
| SInterval (seconds : Z).

Definition sql_error {A} (msg : string) : exn + A :=
  inl (DatabaseError msg).

Fixpoint find_table (name : string) (ts : list (string * list row))
  : option (list row) :=
  match ts with
  | [] => None
  | (n, rows) :: ts' => if (n =? name)%string then Some rows else find_table name ts'
  end.

Fixpoint find_binding (alias : string) (e : env) : option (option row) :=
  match e with
  | [] => None
  | (a, r) :: e' => if (a =? alias)%string then Some r else find_binding alias e'
  end.

(** An unqualified column: the first binding that has it. *)
Fixpoint find_column (column : string) (e : env) : option value :=
  match e with
  | [] => None
  | (_, Some r) :: e' =>
      match lookup column r with
      | Some v => Some v
      | None => find_column column e'
      end
  | (_, None) :: e' => find_column column e'
  end.

Definition column_value (e : env) (qualifier : option string)
  (column : string) : exn + value :=
  match qualifier with
  | Some q =>
      match find_binding q e with
      | Some (Some r) =>
          match lookup column r with
          | Some v => inr v
          | None => sql_error "column does not exist"
          end
      | Some None => inr VNull
      | None => sql_error "missing FROM-clause entry"
      end
  | None =>
      match find_column column e with
      | Some v => inr v
      | None => sql_error "column does not exist"
      end
  end.

(** Three-valued logic: [None] is unknown. *)
Definition and3 (a b : option bool) : option bool :=
  match a, b with
  | Some false, _ | _, Some false => Some false
  | Some true, Some true => Some true
  | _, _ => None
  end.

Definition or3 (a b : option bool) : option bool :=
  match a, b with
  | Some true, _ | _, Some true => Some true
  | Some false, Some false => Some false
  | _, _ => None
  end.

Definition compare_values (op : cmp_op) (a b : value)
  : exn + option bool :=
  match a, b with
  | VNull, _ | _, VNull => inr None
  | VInt x, VInt y | VTimestamp x, VTimestamp y =>
      inr (Some match op with
                | OpEq => (x =? y)%Z
                | OpLe => (x <=? y)%Z
                | OpGe => (y <=? x)%Z
                end)
  | VText x, VText y =>
      match op with
      | OpEq => inr (Some (x =? y)%string)
      | _ => sql_error "ordering of text is not modelled"
      end
  | _, _ => sql_error "operator does not exist"
  end.

Fixpoint in_values (a : value) (items : list value) : exn + option bool :=
  match items with
  | [] => inr (Some false)
  | v :: rest =>
      x <-! compare_values OpEq a v ;;
      y <-! in_values a rest ;;
      inr (or3 x y)
  end.

Definition ilike_values (a pattern : value) : exn + option bool :=
  match a, pattern with
  | VNull, (VNull | VText _) | VText _, VNull => inr None
  | VText s, VText p => inr (Some (ilike s p))
  | _, _ => sql_error "operator does not exist"
  end.

Definition as_value (v : sval) : exn + value :=
  match v with
  | SVal v => inr v
  | SInterval _ => sql_error "an interval is not a value of the model"
  end.

Section Evaluation.

Variable T : store.
Variable params : list value.

Fixpoint eval_expr (e : env) (x : expr) {struct x} : exn + sval :=
  match x with
  | ECol q c => v <-! column_value e q c ;; inr (SVal v)
  | EText s => inr (SVal (VText s))
  | EInt n => inr (SVal (VInt n))
  | ENull => inr (SVal VNull)
  | EParam i =>
      match nth_error params i with
      | Some v => inr (SVal v)
      | None => sql_error "not enough parameters"
      end
  | ENow => inr (SVal (VTimestamp (st_now T)))
  | ESub a b =>
      va <-! eval_expr e a ;;
      vb <-! eval_expr e b ;;
      match va, vb with
      | SVal VNull, SVal (VNull | VTimestamp _ | VInt _)
      | SVal (VTimestamp _ | VInt _), SVal VNull => inr (SVal VNull)
      | SVal (VTimestamp x), SVal (VTimestamp y) => inr (SInterval (x - y))
      | SVal (VInt x), SVal (VInt y) => inr (SVal (VInt (x - y)))
      | _, _ => sql_error "operator does not exist"
      end
  | EExtractDay a =>
      va <-! eval_expr e a ;;
      match va with
      | SInterval s => inr (SVal (VInt (Z.quot s 86400)))
      | SVal VNull => inr (SVal VNull)
      | _ => sql_error "function does not exist"
      end
  | ECase c a b =>
      t <-! eval_cond e c ;;
      match t with
      | Some true => eval_expr e a
      | _ => eval_expr e b
      end
  | ECount _ | EMax _ | EAvg _ =>
      sql_error "aggregate functions are not allowed here"
  end
with eval_cond (e : env) (c : cond) {struct c} : exn + option bool :=
  match c with
  | CCmp op a b =>
      va <-! eval_expr e a ;; va <-! as_value va ;;
      vb <-! eval_expr e b ;; vb <-! as_value vb ;;
      compare_values op va vb
  | CIn a items =>
      va <-! eval_expr e a ;; va <-! as_value va ;;
      in_values va items
  | CILike a p =>
      va <-! eval_expr e a ;; va <-! as_value va ;;
      vp <-! eval_expr e p ;; vp <-! as_value vp ;;
      ilike_values va vp
  | CAnd a b =>
      x <-! eval_cond e a ;; y <-! eval_cond e b ;; inr (and3 x y)
  | COr a b =>
      x <-! eval_cond e a ;; y <-! eval_cond e b ;; inr (or3 x y)
  end.

(** A condition holds on a row of the join: it is true, not unknown. *)
Definition holds (c : option cond) (e : env) : exn + bool :=
  match c with
  | None => inr true
  | Some c =>
      t <-! eval_cond e c ;;
      inr match t with Some true => true | _ => false end
  end.

Fixpoint map_err {A B} (f : A -> exn + B) (l : list A) : exn + list B :=
  match l with
  | [] => inr []
  | x :: l' => y <-! f x ;; ys <-! map_err f l' ;; inr (y :: ys)
  end.

Fixpoint filter_err {A} (f : A -> exn + bool) (l : list A) : exn + list A :=
  match l with
  | [] => inr []
  | x :: l' =>
      b <-! f x ;; ys <-! filter_err f l' ;;
      inr (if b then x :: ys else ys)
  end.

(** *** Aggregates over a group *)

Definition not_null (v : sval) : bool :=
  match v with SVal VNull => false | _ => true end.

Fixpoint max_of (vs : list sval) (best : value) : exn + value :=
  match vs with
  | [] => inr best
  | SVal VNull :: vs' => max_of vs' best
  | SVal (VTimestamp x) :: vs' =>
      match best with
      | VNull => max_of vs' (VTimestamp x)
      | VTimestamp y => max_of vs' (VTimestamp (Z.max y x))
      | _ => sql_error "function does not exist"
      end
  | SVal (VInt x) :: vs' =>
      match best with
      | VNull => max_of vs' (VInt x)
      | VInt y => max_of vs' (VInt (Z.max y x))
      | _ => sql_error "function does not exist"
      end
  | _ :: _ => sql_error "function does not exist"
  end.

Fixpoint sum_of (vs : list sval) (sum : Z) (n : nat) : exn + Z * nat :=
  match vs with
  | [] => inr (sum, n)
  | SVal VNull :: vs' => sum_of vs' sum n
  | SVal (VInt x) :: vs' => sum_of vs' (sum + x)%Z (S n)
  | _ :: _ => sql_error "function does not exist"
  end.

(** An item of the select list over a group: an aggregate over the rows
    of the group, anything else on its first row. *)
Definition eval_item (group : list env) (x : expr) : exn + value :=
  match x with
  | ECount a =>
      vs <-! map_err (fun e => eval_expr e a) group ;;
      inr (VInt (Z.of_nat (List.length (filter not_null vs))))
  | EMax a =>
      vs <-! map_err (fun e => eval_expr e a) group ;;
      max_of vs VNull
  | EAvg a =>
      vs <-! map_err (fun e => eval_expr e a) group ;;
      '(sum, n) <-! sum_of vs 0%Z O ;;
      inr match n with
          | O => VNull
          | S _ => VRatio sum (Pos.of_nat n)
          end
  | _ =>
      match group with
      | e :: _ => v <-! eval_expr e x ;; as_value v
      | [] => sql_error "empty group"
      end
  end.

(** *** FROM and JOIN *)

Definition table_rows (ctes : list (string * list row)) (name : string)
  : exn + list row :=
  match find_table name ctes with
  | Some rows => inr rows
  | None =>
      match find_table name (st_tables T) with
      | Some rows => inr rows
      | None => sql_error "relation does not exist"
      end
  end.

Definition join_row (alias : string) (left : row) (j : join)
  (right : list row) : exn + list env :=
  matches <-!
    filter_err
      (fun r => holds (Some (join_on j))
                  [(alias, Some left); (join_alias j, Some r)])
      right ;;
  inr match matches, join_kind_of j with
      | [], LeftJoin => [[(alias, Some left); (join_alias j, None)]]
      | _, _ =>
          map (fun r => [(alias, Some left); (join_alias j, Some r)]) matches
      end.

Definition from_envs (ctes : list (string * list row)) (q : select)
  : exn + list env :=
  left <-! table_rows ctes (sel_table q) ;;
  match sel_join q with
  | None => inr (map (fun r => [(sel_alias q, Some r)]) left)
  | Some j =>
      right <-! table_rows ctes (join_table j) ;;
      parts <-! map_err (fun l => join_row (sel_alias q) l j right) left ;;
      inr (List.concat parts)
  end.

(** *** GROUP BY *)

Definition value_eq_dec (a b : value) : {a = b} + {a <> b}.
Proof.
  decide equality;
    try apply string_dec; try apply Z.eq_dec; try apply Pos.eq_dec.
  decide equality;
    try apply Bool.bool_dec; try apply Z.eq_dec; try apply Pos.eq_dec.
Defined.

Definition key_eqb (a b : list value) : bool :=
  if list_eq_dec value_eq_dec a b then true else false.

Fixpoint add_to_groups (key : list value) (e : env)
  (groups : list (list value * list env)) : list (list value * list env) :=
  match groups with
  | [] => [(key, [e])]
  | (k, g) :: rest =>
      if key_eqb k key then (k, (g ++ [e])%list) :: rest
      else (k, g) :: add_to_groups key e rest
  end.

Definition group_key (by_ : list expr) (e : env) : exn + list value :=
  map_err (fun x => v <-! eval_expr e x ;; as_value v) by_.

Fixpoint group_envs (by_ : list expr) (envs : list env)
  (groups : list (list value * list env))
  : exn + list (list value * list env) :=
  match envs with
  | [] => inr groups
  | e :: envs' =>
      key <-! group_key by_ e ;;
      group_envs by_ envs' (add_to_groups key e groups)
  end.

Definition is_aggregate (i : item) : bool :=
  match i with
  | IExpr (ECount _ | EMax _ | EAvg _) _ => true
  | _ => false
  end.

(** Without [GROUP BY] every row of the join is a group of its own; a
    select list with an aggregate and no [GROUP BY] is outside the model. *)
Definition groups_of (q : select) (envs : list env) : exn + list (list env) :=
  match sel_group q with
  | [] =>
      if existsb is_aggregate (sel_items q)
      then sql_error "aggregate without GROUP BY is not modelled"
      else inr (map (fun e => [e]) envs)
  | by_ =>
      groups <-! group_envs by_ envs [] ;;
      inr (map snd groups)
  end.

(** *** The select list *)

(** [d[key] = v] on a dictionary: a key already there keeps its place. *)
Fixpoint row_set (key : string) (v : value) (r : row) : row :=
  match r with
  | [] => [(key, v)]
  | (k, w) :: r' =>
      if (k =? key)%string then (k, v) :: r' else (k, w) :: row_set key v r'
  end.

Definition row_update (r : row) (cols : row) : row :=
  fold_left (fun acc kv => row_set (fst kv) (snd kv) acc) cols r.

Definition star_columns (e : env) (qualifier : option string) : exn + row :=
  match qualifier with
  | Some q =>
      match find_binding q e with
      | Some (Some r) => inr r
      | Some None => sql_error "the columns of a missing side are not modelled"
      | None => sql_error "missing FROM-clause entry"
      end
  | None =>
      rs <-!
        map_err
          (fun b : string * option row =>
             match snd b with
             | Some r => inr r
             | None =>
                 sql_error "the columns of a missing side are not modelled"
             end) e ;;
      inr (List.concat rs)
  end.

Definition item_name (x : expr) (alias : option string) : string :=
  match alias, x with
  | Some a, _ => a
  | None, ECol _ c => c
  | None, _ => "?column?"
  end.

(** The row of a group: the items in turn, written into a dictionary. *)
Fixpoint build_row (group : list env) (items : list item) (acc : row)
  : exn + row :=
  match items with
  | [] => inr acc
  | IStar q :: rest =>
      match group with
      | e :: _ =>
          cols <-! star_columns e q ;;
          build_row group rest (row_update acc cols)
      | [] => sql_error "empty group"
      end
  | IExpr x alias :: rest =>
      v <-! eval_item group x ;;
      build_row group rest (row_set (item_name x alias) v acc)
  end.

Definition eval_select (ctes : list (string * list row)) (q : select)
  : exn + list row :=
  envs <-! from_envs ctes q ;;
  kept <-! filter_err (holds (sel_where q)) envs ;;
  groups <-! groups_of q kept ;;
  map_err (fun g => build_row g (sel_items q) []) groups.

Definition eval_statement (s : statement) : exn + list row :=
  match st_with s with
  | None => eval_select [] (st_body s)
  | Some (name, q) =>
      rows <-! eval_select [] q ;;
      eval_select [(name, rows)] (st_body s)
  end.

End Evaluation.

(** *** Connectors over a store *)

(** The store answering by the model, rows in the order of evaluation. *)
Definition sql_execute (T : store) (sql : string) (params : list value)
  : exn + list row :=
  match parse_sql sql with
  | Some s => eval_statement T params s
  | None => sql_error "statement outside the modelled SQL"
  end.

Definition sql_store (T : store) : Connector :=
  {| connect := None; execute := sql_execute T |}.

(** A connector answers over a store: it is connected, and the rows it
    returns for a statement the model reads are the rows of the statement,
    in some order. *)
Definition answers (T : store) (K : Connector) : Prop :=
  connect K = None /\
  forall sql params rows s,
    parse_sql sql = Some s ->
    execute K sql params = inr rows ->
    exists rows0,
      eval_statement T params s = inr rows0 /\ Permutation rows rows0.


(** *** The statements of the catalog, as the parser reads them *)

Definition open_status_cond : cond :=
  CIn (ECol (Some "t") "status") [VText "Open"; VText "In Progress"].

Definition priority_cond : cond :=
  CCmp OpEq (ECol (Some "t") "priority") (EParam 0).

Definition open_tickets_items : list item :=
  [IExpr (ECol (Some "t") "id") None;
   IExpr (ECol (Some "t") "subject") None;
   IExpr (ECol (Some "t") "status") None;
   IExpr (ECol (Some "t") "priority") None;
   IExpr (ECol (Some "t") "created_at") None;
   IExpr (ECol (Some "c") "name") (Some "customer_name");
   IExpr (ECol (Some "c") "subscription_tier") None;
   IExpr (ECol (Some "c") "mrr") None;
   IExpr (ECol (Some "c") "country") None;
   IExpr (EExtractDay (ESub ENow (ECol (Some "t") "created_at")))
     (Some "days_open")].

Definition open_tickets_select (w : cond) : select :=
  {| sel_items := open_tickets_items;
     sel_table := "support_tickets";
     sel_alias := "t";
     sel_join :=
       Some {| join_kind_of := InnerJoin;
               join_table := "customers";
               join_alias := "c";
               join_on := CCmp OpEq (ECol (Some "t") "customer_id")
                            (ECol (Some "c") "id") |};
     sel_where := Some w;
     sel_group := [];
     sel_order := [(ECol (Some "t") "priority", true);
                   (ECol (Some "t") "created_at", false)] |}.

Definition open_tickets_statement (w : cond) : statement :=
  {| st_with := None; st_body := open_tickets_select w |}.

Definition customer_join : join :=
  {| join_kind_of := LeftJoin;
     join_table := "support_tickets";
     join_alias := "t";
     join_on := CCmp OpEq (ECol (Some "c") "id")
                  (ECol (Some "t") "customer_id") |}.

Definition count_when (c : cond) : expr := ECount (ECase c (EInt 1) ENull).

Definition customer_info_select : select :=
  {| sel_items :=
       [IStar (Some "c");
        IExpr (ECount (ECol (Some "t") "id")) (Some "total_tickets");
        IExpr (count_when (CCmp OpEq (ECol (Some "t") "status")
                             (EText "Open")))
          (Some "open_tickets");
        IExpr (count_when (CCmp OpEq (ECol (Some "t") "status")
                             (EText "In Progress")))
          (Some "in_progress_tickets");
        IExpr (count_when (CCmp OpEq (ECol (Some "t") "priority")
                             (EText "High")))
          (Some "high_priority_tickets");
        IExpr (EMax (ECol (Some "t") "created_at"))
          (Some "last_ticket_date")];
     sel_table := "customers";
     sel_alias := "c";
     sel_join := Some customer_join;
     sel_where :=
       Some (COr (CILike (ECol (Some "c") "name") (EParam 0))
               (CILike (ECol (Some "c") "email") (EParam 1)));
     sel_group := [ECol (Some "c") "id"];
     sel_order := [(ECol (Some "c") "mrr", true)] |}.

Definition health_metrics_select : select :=
  {| sel_items :=
       [IExpr (ECol (Some "c") "id") None;
        IExpr (ECol (Some "c") "name") None;
        IExpr (ECol (Some "c") "subscription_tier") None;
        IExpr (ECol (Some "c") "mrr") None;
        IExpr (EExtractDay (ESub ENow (ECol (Some "c") "created_at")))
          (Some "account_age_days");
        IExpr (ECount (ECol (Some "t") "id")) (Some "total_tickets");
        IExpr (count_when (CIn (ECol (Some "t") "status")
                             [VText "Open"; VText "In Progress"]))
          (Some "open_tickets");
        IExpr (count_when (CCmp OpEq (ECol (Some "t") "priority")
                             (EText "High")))
          (Some "high_priority_tickets");
        IExpr (EAvg (EExtractDay
                       (ESub (ECol (Some "t") "resolved_at")
                          (ECol (Some "t") "created_at"))))
          (Some "avg_resolution_days")];
     sel_table := "customers";
     sel_alias := "c";
     sel_join := Some customer_join;
     sel_where := Some (CILike (ECol (Some "c") "name") (EParam 0));
     sel_group := [ECol (Some "c") "id"];
     sel_order := [] |}.

(** The [CASE] of the health score, as parsed. *)
Definition health_score_case : expr :=
  ECase (CCmp OpEq (ECol None "open_tickets") (EInt 0)) (EInt 100)
    (ECase (CAnd (CCmp OpLe (ECol None "open_tickets") (EInt 2))
              (CCmp OpEq (ECol None "high_priority_tickets") (EInt 0)))
       (EInt 85)
       (ECase (CAnd (CCmp OpLe (ECol None "open_tickets") (EInt 5))
                 (CCmp OpLe (ECol None "high_priority_tickets") (EInt 1)))
          (EInt 70)
          (ECase (CCmp OpGe (ECol None "high_priority_tickets") (EInt 2))
             (EInt 40) (EInt 60)))).

Definition health_score_select : select :=
  {| sel_items := [IStar None; IExpr health_score_case (Some "health_score")];
     sel_table := "customer_metrics";
     sel_alias := "customer_metrics";
     sel_join := None;
     sel_where := None;
     sel_group := [];
     sel_order := [] |}.

Definition customer_info_statement : statement :=
  {| st_with := None; st_body := customer_info_select |}.

Definition health_score_statement : statement :=
  {| st_with := Some ("customer_metrics", health_metrics_select);
     st_body := health_score_select |}.

(** An item may write the column [a] of the row. *)
Definition may_write (a : string) (i : item) : bool :=
  match i with
  | IStar _ => true
  | IExpr x alias => (item_name x alias =? a)%string
  end.

(** *** Stores for the examples *)

Definition sample_store : store :=
  {| st_tables :=
       [("customers",
         [[("id", VInt 1); ("name", VText "ASML");
           ("email", VText "ops@asml.com"); ("country", VText "NL");
           ("subscription_tier", VText "Enterprise"); ("mrr", VInt 50000);
           ("created_at", VTimestamp 0)];
          [("id", VInt 2); ("name", VText "Accenture"); ("email", VNull);
           ("country", VText "IE"); ("subscription_tier", VText "Pro");
           ("mrr", VInt 30000); ("created_at", VTimestamp 86400)]]);
        ("support_tickets",
         [[("id", VInt 10); ("customer_id", VInt 1);
           ("subject", VText "Login fails"); ("status", VText "Open");
           ("priority", VText "High"); ("created_at", VTimestamp 172800);
           ("resolved_at", VNull)];
          [("id", VInt 11); ("customer_id", VInt 2);
           ("subject", VText "Slow export"); ("status", VText "In Progress");
           ("priority", VText "Low"); ("created_at", VTimestamp 259200);
           ("resolved_at", VNull)];
          [("id", VInt 12); ("customer_id", VInt 1);
           ("subject", VText "Invoice typo"); ("status", VText "Resolved");
           ("priority", VText "High"); ("created_at", VTimestamp 100000);
           ("resolved_at", VTimestamp 300000)]])];
     st_now := 864000 |}.

(** The tables of the reference store. *)
Definition ticket_columns (t : ticket) : row :=
  [("id", VInt (t_id t));
   ("customer_id", VInt (t_customer_id t));
   ("subject", VText (t_subject t));
   ("status", VText (t_status t));
   ("priority", VText (t_priority t));
   ("created_at", VTimestamp (t_created_at t));
   ("resolved_at",
     match t_resolved_at t with
     | Some r => VTimestamp r
     | None => VNull
     end)].

Definition store_of (db : database) : store :=
  {| st_tables :=
       [("customers", map customer_columns (customers db));
        ("support_tickets", map ticket_columns (support_tickets db))];
     st_now := now db |}.

Definition sample_requests : list (string * list value) :=
  [get_customer_info_request "a";
   get_customer_info_request "ASML";
   get_customer_info_request "zzz";
   get_open_tickets_request None;
   get_open_tickets_request (Some "High");
   get_customer_health_score_request "a";
   get_customer_health_score_request "%"].


(** * Properties *)

(** ** Strings *)

Lemma startswith_app (p s : string) :
  startswith p s = true <-> exists r, s = p ++ r.
Proof.
  revert s; induction p as [|a p IH]; intros s; simpl.
  - split; [intros _; now exists s | reflexivity].
  - destruct s as [|b s].
    + split; [discriminate | intros [r Hr]; discriminate].
    + rewrite andb_true_iff, Ascii.eqb_eq, IH. split.
      * intros [-> [r ->]]. now exists r.
      * intros [r Hr]. injection Hr as -> ->. split; [reflexivity | now exists r].
Qed.

Lemma contains_spec (k s : string) :
  contains k s = true <-> is_substring k s.
Proof.
  unfold is_substring. induction s as [|b s IH].
  - simpl. rewrite orb_false_r, startswith_app. split.
    + intros [r Hr]. now exists "", r.
    + intros [[|a pre] [post H]]; simpl in H; [now exists post | discriminate].
  - cbn [contains]. rewrite orb_true_iff, startswith_app, IH. split.
    + intros [[r Hr] | [pre [post H]]].
      * now exists "", r.
      * exists (String b pre), post. simpl. now rewrite H.
    + intros [[|a pre] [post H]]; simpl in H.
      * left. now exists post.
      * right. injection H as _ H. now exists pre, post.
Qed.

Lemma contains_false (k s : string) :
  contains k s = false <-> ~ is_substring k s.
Proof.
  rewrite <- contains_spec. destruct (contains k s); split; intros H.
  - discriminate.
  - now elim H.
  - intros H'; discriminate.
  - reflexivity.
Qed.

(** ** validate_query *)

Lemma check_forbidden_return (keywords : list string) (s : string) :
  check_forbidden keywords s = Return tt <->
  forall keyword, In keyword keywords -> contains keyword s = false.
Proof.
  induction keywords as [|k ks IH]; simpl.
  - split; [intros _ ? [] | reflexivity].
  - destruct (contains k s) eqn:E.
    + split; [discriminate | intros H; specialize (H k (or_introl eq_refl))].
      rewrite E in H; discriminate.
    + rewrite IH. split.
      * intros H k' [<- | Hin]; [exact E | now apply H].
      * intros H k' Hin. apply H. now right.
Qed.

Lemma check_forbidden_raise (keywords : list string) (s : string) :
  (exists msg, check_forbidden keywords s = Raise (ValueError msg)) <->
  exists keyword, In keyword keywords /\ contains keyword s = true.
Proof.
  induction keywords as [|k ks IH]; simpl.
  - split; [intros [? H]; discriminate | intros [? [[] _]]].
  - destruct (contains k s) eqn:E.
    + split; [intros _; exists k; auto | intros _; eexists; reflexivity].
    + rewrite IH. split.
      * intros [k' [Hin H]]. exists k'. auto.
      * intros [k' [[<- | Hin] H]]; [congruence | now exists k'].
Qed.

(** C1.  For a text whose normalized form begins with SELECT,
    [validate_query] raises [ValueError] exactly when one of the nine
    forbidden keywords occurs in the normalized (upper-cased) text, and it
    returns when none occurs. *)
Theorem validate_query_forbidden_iff (query : string) :
  startswith "SELECT" (normalize query) = true ->
  ((exists msg, validate_query query = Raise (ValueError msg)) <->
   (exists keyword,
       In keyword FORBIDDEN_KEYWORDS /\
       is_substring keyword (normalize query)))
  /\
  ((forall keyword,
       In keyword FORBIDDEN_KEYWORDS ->
       ~ is_substring keyword (normalize query)) ->
   validate_query query = Return true).
Proof.
  intros Hsel. unfold validate_query. cbv zeta. rewrite Hsel. cbn [negb].
  split.
  - transitivity
      (exists keyword,
          In keyword FORBIDDEN_KEYWORDS /\
          contains keyword (normalize query) = true).
    + rewrite <- check_forbidden_raise.
      destruct (check_forbidden FORBIDDEN_KEYWORDS (normalize query)) as [u|e].
      * split; intros [msg H]; discriminate.
      * split; intros [msg H]; exists msg; congruence.
    + split; intros [k [Hin H]]; exists k; split; auto;
        now apply contains_spec.
  - intros Hnone.
    assert (H : check_forbidden FORBIDDEN_KEYWORDS (normalize query)
                = Return tt).
    { apply check_forbidden_return. intros k Hin.
      apply contains_false. now apply Hnone. }
    now rewrite H.
Qed.

Lemma validate_query_forbidden_iff_witness :
  validate_query "select name from customers" = Return true.
Proof.
  apply (validate_query_forbidden_iff "select name from customers").
  - reflexivity.
  - intros keyword Hin. apply contains_false.
    simpl in Hin.
    repeat (destruct Hin as [<- | Hin]; [reflexivity|]).
    destruct Hin.
Defined.

(** C2, as the code has it.  [validate_query] accepts only a text whose
    normalized form has the six characters SELECT as a prefix, and every
    text without that prefix is refused with "Only SELECT queries are
    permitted".  Nothing is asked of the character after the prefix. *)
Theorem validate_query_select_prefix (query : string) :
  (validate_query query = Return true ->
   startswith "SELECT" (normalize query) = true)
  /\
  (startswith "SELECT" (normalize query) = false ->
   validate_query query
   = Raise (ValueError "Only SELECT queries are permitted")).
Proof.
  unfold validate_query. cbv zeta.
  destruct (startswith "SELECT" (normalize query)); cbn [negb]; split;
    try reflexivity; try discriminate.
Qed.

Lemma validate_query_select_prefix_witness :
  startswith "SELECT" (normalize "  select 1") = true /\
  validate_query "drop table customers"
  = Raise (ValueError "Only SELECT queries are permitted").
Proof.
  split.
  - apply (proj1 (validate_query_select_prefix "  select 1")). reflexivity.
  - apply (proj2 (validate_query_select_prefix "drop table customers")).
    reflexivity.
Defined.

(** C2, as the specification words it, fails: SELECTX is accepted although
    its normalized form does not begin with the token SELECT. *)
Lemma validate_query_accepts_longer_word :
  validate_query "SELECTX" = Return true /\
  spec_begins_with_token_SELECT (normalize "SELECTX") = false.
Proof. split; reflexivity. Qed.

(** ** The health score rule *)

Lemma rule_applies_range (k : nat) (o h : N) :
  rule_applies k o h = true -> 1 <= k <= 5.
Proof.
  unfold rule_applies. intros H. apply andb_true_iff in H as [H _].
  do 6 (destruct k as [|k]; [simpl in H; try discriminate; lia|]).
  discriminate.
Qed.

(** C3.  The rule is a total function of the two counts: the five sample
    pairs score 100, 85, 70, 40 and 60, exactly one branch is taken on
    every pair, and the score is one of 100, 85, 70, 60, 40. *)
Theorem health_score_total (o h : N) :
  health_score 0 h = 100%N /\
  health_score 1 0 = 85%N /\
  health_score 4 1 = 70%N /\
  health_score 3 2 = 40%N /\
  health_score 6 1 = 60%N /\
  (exists k,
      1 <= k <= 5 /\
      rule_applies k o h = true /\
      health_score o h = rule_score k /\
      forall j, rule_applies j o h = true -> j = k) /\
  In (health_score o h) [100%N; 85%N; 70%N; 60%N; 40%N].
Proof.
  repeat (split; [reflexivity|]).
  assert (Hex : exists k,
             rule_applies k o h = true /\ health_score o h = rule_score k /\
             forall j, rule_applies j o h = true -> j = k).
  { unfold health_score.
    destruct (o =? 0)%N eqn:E1;
      [exists 1 | destruct ((o <=? 2) && (h =? 0))%N eqn:E2;
        [exists 2 | destruct ((o <=? 5) && (h <=? 1))%N eqn:E3;
          [exists 3 | destruct (2 <=? h)%N eqn:E4; [exists 4 | exists 5]]]];
      (split; [cbv [rule_applies rule_condition forallb seq Nat.sub];
               now rewrite ?E1, ?E2, ?E3, ?E4|]);
      (split; [reflexivity|]);
      intros j Hj; pose proof (rule_applies_range _ _ _ Hj) as Hr;
      do 6 (destruct j as [|j];
        [ try lia; try reflexivity; exfalso;
          cbv [rule_applies rule_condition forallb seq Nat.sub] in Hj;
          rewrite ?E1, ?E2, ?E3, ?E4 in Hj; simpl in Hj;
          rewrite ?andb_false_r in Hj; discriminate |]);
      lia. }
  destruct Hex as [k [Ha [Hs Hu]]]. split.
  - exists k. split; [now apply rule_applies_range with o h | auto].
  - rewrite Hs. pose proof (rule_applies_range _ _ _ Ha) as Hr.
    do 6 (destruct k as [|k]; [try lia; simpl; tauto|]). lia.
Qed.

(** ** Tools: what happens to the connection *)

Ltac unfold_tools :=
  cbv [invoke fmap query_database get_customer_info get_open_tickets
       get_at_risk_customers get_customer_health_score startup_probe
       get_customer_info_request get_at_risk_customers_request
       get_customer_health_score_request
       with_connection_cursor get_db_connection with_block
       connection_exit cursor_exit cur_execute
       bind ret raise emit lift fetchall fetchone run trace fst snd app].

Ltac case_outcomes :=
  repeat match goal with
    | |- context [connect ?K] => destruct (connect K) as [?|]
    | |- context [validate_query ?q] => destruct (validate_query q)
    | |- context [execute ?K ?q ?p] => destruct (execute K q p) as [?|[|[|] ?]]
    | |- context [get_open_tickets_request ?p] =>
        destruct (get_open_tickets_request p)
    | |- context [lookup ?k ?r] => destruct (lookup k r)
    end.

(** C4, what the code does.  Whatever the store answers, a tool invocation
    ends the transaction once for the connection it acquired (the
    [__exit__] of the [with] block) and never closes that connection. *)
Theorem invoke_never_closes (K : Connector) (call : tool_call) :
  count is_close (trace (invoke K call)) = 0 /\
  count is_transaction_end (trace (invoke K call))
  = count is_connect (trace (invoke K call)) /\
  count is_connect (trace (invoke K call)) <= 1.
Proof.
  destruct call; unfold_tools; case_outcomes; cbn; auto.
Qed.

(** The failing input of C4 on the sample data: the connection is opened,
    the statement runs, the cursor is closed, the transaction is committed,
    and the history ends there. *)
Example get_open_tickets_leaves_connection_open :
  trace (invoke (pg sample_db) (Call_get_open_tickets None))
  = [Connect; OpenCursor;
     Execute (open_tickets_query ++ order_clause) [];
     CloseCursor; Commit].
Proof. reflexivity. Qed.

(** The connection test at startup, by contrast, closes what it opened. *)
Lemma startup_probe_closes (K : Connector) :
  connect K = None ->
  run (startup_probe K) = Return true /\
  trace (startup_probe K) = [Connect; Close].
Proof. intros H. unfold_tools. now rewrite H. Qed.

(** ** Tools: the statement sent and the parameters bound *)

Lemma get_open_tickets_request_truthy (priority : option string) :
  get_open_tickets_request priority
  = if truthy priority
    then ((open_tickets_query ++ priority_clause) ++ order_clause,
          match priority with Some p => [VText p] | None => [] end)
    else (open_tickets_query ++ order_clause, []).
Proof. destruct priority as [[|c p]|]; reflexivity. Qed.

(** C5.  The statement a fixed tool sends does not
    depend on the values of its arguments, only, for [get_open_tickets], on
    the truth value of [priority]: two calls of the same fixed tool with
    optional arguments of equal truth value send the same text.  The search
    string, the threshold and the priority appear in the bound parameters
    only, the search string wrapped in wildcards. *)
Theorem fixed_tools_sql_independent_of_values
  (K : Connector) (c1 c2 : tool_call) :
  same_fixed_tool c1 c2 = true ->
  sent_sql (trace (invoke K c1)) = sent_sql (trace (invoke K c2)) /\
  (forall search,
      get_customer_info_request search
      = (customer_info_query,
         [VText ("%" ++ search ++ "%"); VText ("%" ++ search ++ "%")])) /\
  (forall customer_name,
      get_customer_health_score_request customer_name
      = (health_score_query, [VText ("%" ++ customer_name ++ "%")])) /\
  (forall min_mrr,
      get_at_risk_customers_request min_mrr
      = (at_risk_query, [VFloat min_mrr])) /\
  (forall priority,
      fst (get_open_tickets_request priority)
      = if truthy priority
        then (open_tickets_query ++ priority_clause) ++ order_clause
        else open_tickets_query ++ order_clause) /\
  (forall priority,
      truthy (Some priority) = true ->
      snd (get_open_tickets_request (Some priority)) = [VText priority]).
Proof.
  intros Hsame. split; [|repeat split].
  - destruct c1, c2; try discriminate Hsame.
    + unfold_tools. case_outcomes; reflexivity.
    + cbn [same_fixed_tool] in Hsame. apply eqb_prop in Hsame.
      cbv [invoke fmap get_open_tickets].
      rewrite !get_open_tickets_request_truthy, Hsame.
      destruct (truthy priority0); unfold_tools; case_outcomes; reflexivity.
    + unfold_tools. case_outcomes; reflexivity.
    + unfold_tools. case_outcomes; reflexivity.
  - intros priority. rewrite get_open_tickets_request_truthy.
    now destruct (truthy priority).
  - intros priority H. rewrite get_open_tickets_request_truthy, H.
    reflexivity.
Qed.

Lemma fixed_tools_sql_independent_of_values_witness :
  sent_sql (trace (invoke (pg sample_db) (Call_get_open_tickets (Some "High"))))
  = sent_sql (trace (invoke (pg sample_db) (Call_get_open_tickets (Some "Low")))).
Proof.
  apply (fixed_tools_sql_independent_of_values (pg sample_db)
           (Call_get_open_tickets (Some "High"))
           (Call_get_open_tickets (Some "Low"))).
  reflexivity.
Defined.

(** C9.  With the empty string as [priority], [get_open_tickets] is the
    call without a priority: the same statement, without the priority
    clause, no parameter bound, and the same computation against every
    connector. *)
Theorem get_open_tickets_empty_priority (K : Connector) :
  get_open_tickets_request (Some "") = get_open_tickets_request None /\
  get_open_tickets_request (Some "")
  = (open_tickets_query ++ order_clause, []) /\
  get_open_tickets K (Some "") = get_open_tickets K None.
Proof. repeat split. Qed.

(** ** Tools: the shape of the result *)

(** C6.  When the store returns no row, [get_customer_info] returns the
    one-element list with the message that quotes the search string; when
    it returns rows, these are passed through; an empty list is never
    returned. *)
Theorem get_customer_info_never_empty (K : Connector) (search : string) :
  (connect K = None ->
   execute K customer_info_query
     [VText (wildcard_wrap search); VText (wildcard_wrap search)] = inr [] ->
   run (get_customer_info K search)
   = Return [[("message",
               VText ("No customer found matching '" ++ search ++ "'"))]])
  /\
  (forall r rows,
      connect K = None ->
      execute K customer_info_query
        [VText (wildcard_wrap search); VText (wildcard_wrap search)]
      = inr (r :: rows) ->
      run (get_customer_info K search) = Return (r :: rows))
  /\
  run (get_customer_info K search) <> Return [].
Proof.
  repeat split.
  - intros Hc He. unfold_tools. now rewrite Hc, He.
  - intros r rows Hc He. unfold_tools. now rewrite Hc, He.
  - unfold_tools.
    destruct (connect K); [discriminate|].
    destruct (execute K _ _) as [e|[|r rows]]; discriminate.
Qed.

Lemma get_customer_info_never_empty_witness :
  run (get_customer_info (pg sample_db) "zzz")
  = Return [[("message", VText "No customer found matching 'zzz'")]]
  /\
  run (get_customer_info (canned (inr [[("name", VText "ASML")]])) "asml")
  = Return [[("name", VText "ASML")]].
Proof.
  split.
  - apply (proj1 (get_customer_info_never_empty (pg sample_db) "zzz"));
      reflexivity.
  - apply (proj1 (proj2 (get_customer_info_never_empty
                           (canned (inr [[("name", VText "ASML")]])) "asml")));
      reflexivity.
Defined.

(** Every row of the health score statement carries its score. *)
Lemma health_score_row_has_score (db : database) (c : customer) :
  exists v, lookup "health_score" (health_score_row db c) = Some v.
Proof. eexists. reflexivity. Qed.

Lemma pg_execute_health_score (db : database) (p : string) :
  pg_execute db health_score_query [VText p] = inr (health_score_rows db p).
Proof. reflexivity. Qed.

(** C7.  When the statement yields no row, [get_customer_health_score]
    returns the error object that quotes the customer name; when it yields
    rows, the first one is returned, as a single object, however many
    follow.  Against the reference store the result is always one of the
    two. *)
Theorem get_customer_health_score_single_record
  (K : Connector) (customer_name : string) :
  (connect K = None ->
   execute K health_score_query [VText (wildcard_wrap customer_name)]
   = inr [] ->
   run (get_customer_health_score K customer_name)
   = Return [("error",
              VText ("No customer found matching '" ++ customer_name ++ "'"))])
  /\
  (forall r rest v,
      connect K = None ->
      execute K health_score_query [VText (wildcard_wrap customer_name)]
      = inr (r :: rest) ->
      lookup "health_score" r = Some v ->
      run (get_customer_health_score K customer_name) = Return r)
  /\
  (forall db,
      run (get_customer_health_score (pg db) customer_name)
      = Return
          match health_score_rows db (wildcard_wrap customer_name) with
          | [] =>
              [("error",
                VText ("No customer found matching '"
                       ++ customer_name ++ "'"))]
          | r :: _ => r
          end).
Proof.
  repeat split.
  - intros Hc He. unfold_tools. now rewrite Hc, He.
  - intros r rest v Hc He Hl. unfold_tools. rewrite Hc, He.
    destruct r as [|col cols]; [discriminate Hl|]. now rewrite Hl.
  - intros db. unfold_tools. cbn [connect execute pg].
    rewrite pg_execute_health_score.
    unfold health_score_rows.
    destruct (filter _ (customers db)) as [|c cs]; reflexivity.
Qed.

Lemma get_customer_health_score_single_record_witness :
  run (get_customer_health_score (pg sample_db) "nobody")
  = Return [("error", VText "No customer found matching 'nobody'")]
  /\
  run (get_customer_health_score (pg sample_db) "a")
  = Return (health_score_row sample_db asml).
Proof.
  split.
  - apply (proj1 (get_customer_health_score_single_record
                    (pg sample_db) "nobody")); reflexivity.
  - apply (proj1 (proj2 (get_customer_health_score_single_record
                           (pg sample_db) "a"))
             (health_score_row sample_db asml)
             [health_score_row sample_db accenture]
             (VInt 40)); reflexivity.
Defined.

(** ** LIKE patterns built from the caller's text *)

Lemma like_percent (p s : string) :
  like (String "%" p) s
  = like p s ||
    match s with
    | EmptyString => false
    | String _ s' => like (String "%" p) s'
    end.
Proof. destruct s; reflexivity. Qed.


Lemma like_percent_only (s : string) : like "%" s = true.
Proof.
  induction s as [|c s IH]; rewrite like_percent; [reflexivity|].
  rewrite IH. apply orb_true_r.
Qed.



(** ** Examples on concrete inputs *)

(** The statements are the literal texts of [server.py], character for
    character. *)
Example query_text_lengths :
  (String.length customer_info_query, String.length open_tickets_query,
   String.length at_risk_query, String.length health_score_query)
  = (565, 440, 725, 1122).
Proof. vm_compute. reflexivity. Qed.

(** The keyword check is a substring test: a column named [created_at] is
    enough to refuse a query. *)
Example validate_query_refuses_created_at :
  validate_query "select created_at from customers"
  = Raise (ValueError "Forbidden operation detected: CREATE").
Proof. reflexivity. Qed.

(** A refused query never reaches the store. *)
Example query_database_refused_before_connecting :
  trace (query_database (pg sample_db) "delete from customers") = [] /\
  run (query_database (pg sample_db) "delete from customers")
  = Raise (ValueError "Only SELECT queries are permitted").
Proof. split; reflexivity. Qed.

(** When no connection can be established the exception of the connector
    is what the tool raises, and nothing was opened. *)
Example get_customer_info_unreachable :
  run (get_customer_info unreachable "asml")
  = Raise (DatabaseError "could not connect to server") /\
  trace (get_customer_info unreachable "asml") = [].
Proof. split; reflexivity. Qed.

(** A failing statement rolls the transaction back and the exception goes
    on to the caller. *)
Example get_customer_health_score_rolls_back :
  run (get_customer_health_score (canned (inl (DatabaseError "boom"))) "a")
  = Raise (DatabaseError "boom") /\
  trace (get_customer_health_score (canned (inl (DatabaseError "boom"))) "a")
  = [Connect; OpenCursor;
     Execute health_score_query [VText "%a%"];
     CloseCursor; Rollback].
Proof. split; reflexivity. Qed.

(** A backslash in the pattern makes the next character literal. *)
Example like_escape :
  like "a\%b" "a%b" = true /\ like "a\%b" "axb" = false /\
  like "a_b" "axb" = true /\ like "a%b" "a--b" = true.
Proof. repeat split. Qed.

(** The health score of the sample customer: one open ticket, two of high
    priority. *)
Example health_score_of_asml :
  lookup "health_score" (health_score_row sample_db asml) = Some (VInt 40).
Proof. reflexivity. Qed.

(** * Further properties of the code *)

(** ** Letter case and white space in [validate_query] *)

Lemma upper_char_idem (c : ascii) : upper_char (upper_char c) = upper_char c.
Proof. destruct c as [[] [] [] [] [] [] [] []]; reflexivity. Qed.

Lemma upper_lower_char (c : ascii) : upper_char (lower_char c) = upper_char c.
Proof. destruct c as [[] [] [] [] [] [] [] []]; reflexivity. Qed.

Lemma upper_char_space (c : ascii) : isspace c = true -> upper_char c = c.
Proof. destruct c as [[] [] [] [] [] [] [] []]; intros H; try reflexivity; discriminate H. Qed.

Lemma upper_idem (s : string) : upper (upper s) = upper s.
Proof.
  induction s as [|c s IH]; simpl; [reflexivity|].
  now rewrite upper_char_idem, IH.
Qed.

Lemma upper_lower (s : string) : upper (lower s) = upper s.
Proof.
  induction s as [|c s IH]; simpl; [reflexivity|].
  now rewrite upper_lower_char, IH.
Qed.

Lemma upper_app (a b : string) : upper (a ++ b) = upper a ++ upper b.
Proof.
  induction a as [|c a IH]; simpl; [reflexivity|]. now rewrite IH.
Qed.

Lemma upper_all_space (s : string) : all_space s = true -> upper s = s.
Proof.
  induction s as [|c s IH]; simpl; [reflexivity|].
  intros H. apply andb_true_iff in H as [Hc Hs].
  now rewrite upper_char_space, IH.
Qed.

Lemma lstrip_all_space (ws s : string) :
  all_space ws = true -> lstrip (ws ++ s) = lstrip s.
Proof.
  induction ws as [|c ws IH]; simpl; [reflexivity|].
  intros H. apply andb_true_iff in H as [Hc Hs]. rewrite Hc. auto.
Qed.

Lemma rstrip_all_space (ws : string) : all_space ws = true -> rstrip ws = "".
Proof.
  induction ws as [|c ws IH]; simpl; [reflexivity|].
  intros H. apply andb_true_iff in H as [Hc Hs]. now rewrite IH, Hc.
Qed.

Lemma rstrip_app_all_space (s ws : string) :
  all_space ws = true -> rstrip (s ++ ws) = rstrip s.
Proof.
  intros H. induction s as [|c s IH]; simpl.
  - now apply rstrip_all_space.
  - now rewrite IH.
Qed.

Lemma lstrip_only_space (ws : string) : all_space ws = true -> lstrip ws = "".
Proof.
  induction ws as [|c ws IH]; simpl; [reflexivity|].
  intros H. apply andb_true_iff in H as [Hc Hs]. rewrite Hc. auto.
Qed.

Lemma strip_all_space (ws1 s ws2 : string) :
  all_space ws1 = true -> all_space ws2 = true ->
  strip (ws1 ++ s ++ ws2) = strip s.
Proof.
  intros H1 H2. unfold strip. rewrite lstrip_all_space by exact H1.
  induction s as [|c s IH]; simpl.
  - now rewrite lstrip_only_space.
  - destruct (isspace c); [exact IH|].
    change (String c (s ++ ws2)) with (String c s ++ ws2).
    now apply rstrip_app_all_space.
Qed.

(** X1.  The verdict of [validate_query] does not depend on the letter case
    of the text: the text in upper case, or in lower case, is judged as the
    text itself. *)
Theorem validate_query_case_insensitive (query : string) :
  validate_query (upper query) = validate_query query /\
  validate_query (lower query) = validate_query query.
Proof.
  unfold validate_query, normalize. now rewrite upper_idem, upper_lower.
Qed.

(** X2.  White space around the text does not change the verdict. *)
Theorem validate_query_ignores_outer_space (ws1 query ws2 : string) :
  all_space ws1 = true ->
  all_space ws2 = true ->
  validate_query (ws1 ++ query ++ ws2) = validate_query query.
Proof.
  intros H1 H2. unfold validate_query, normalize.
  rewrite !upper_app, (upper_all_space ws1), (upper_all_space ws2) by assumption.
  now rewrite strip_all_space.
Qed.

Lemma validate_query_ignores_outer_space_witness :
  validate_query ("  " ++ "select 1" ++ " ") = validate_query "select 1".
Proof.
  apply (validate_query_ignores_outer_space "  " "select 1" " ");
    reflexivity.
Defined.

(** ** What an accepted query cannot contain *)

Lemma append_assoc (a b c : string) : (a ++ b) ++ c = a ++ b ++ c.
Proof.
  induction a as [|x a IH]; simpl; [reflexivity|]. now rewrite IH.
Qed.

Lemma lstrip_app_solid (pre r : string) :
  starts_solid r = true -> lstrip (pre ++ r) = lstrip pre ++ r.
Proof.
  intros H. induction pre as [|c pre IH]; simpl.
  - destruct r as [|a r]; [discriminate H|]. simpl in *.
    now destruct (isspace a).
  - now destruct (isspace c).
Qed.

Lemma rstrip_app_solid (r post : string) :
  ends_solid r = true -> rstrip (r ++ post) = r ++ rstrip post.
Proof.
  induction r as [|c r IH]; [discriminate|].
  destruct r as [|d r].
  - simpl. intros H. destruct (rstrip post); [|reflexivity].
    now destruct (isspace c).
  - intros H. change (ends_solid (String d r) = true) in H.
    specialize (IH H).
    change (rstrip (String c (String d r ++ post))
            = String c (String d r ++ rstrip post)).
    cbn [rstrip]. rewrite IH. reflexivity.
Qed.

Lemma ends_solid_app (x k : string) :
  ends_solid k = true -> ends_solid (x ++ k) = true.
Proof.
  intros H. induction x as [|c x IH]; [exact H|].
  simpl. destruct (x ++ k) eqn:E; [|exact IH].
  destruct x; simpl in E; [subst k; discriminate H | discriminate E].
Qed.

Lemma is_substring_strip (k s : string) :
  starts_solid k = true -> ends_solid k = true ->
  is_substring k s -> is_substring k (strip s).
Proof.
  intros Hs He [pre [post ->]]. unfold strip.
  exists (lstrip pre), (rstrip post).
  rewrite lstrip_app_solid.
  - rewrite <- append_assoc, rstrip_app_solid.
    + now rewrite append_assoc.
    + now apply ends_solid_app.
  - destruct k; [discriminate Hs | exact Hs].
Qed.

Lemma is_substring_upper (w s : string) :
  is_substring w s -> is_substring (upper w) (upper s).
Proof.
  intros [pre [post ->]]. exists (upper pre), (upper post).
  now rewrite !upper_app.
Qed.

Lemma forbidden_keywords_solid (keyword : string) :
  In keyword FORBIDDEN_KEYWORDS ->
  starts_solid keyword = true /\ ends_solid keyword = true.
Proof.
  intros Hin. simpl in Hin.
  repeat (destruct Hin as [<- | Hin]; [split; reflexivity|]).
  destruct Hin.
Qed.

(** X3.  An accepted query contains none of the forbidden words, in any
    mix of letter case, anywhere in its raw text. *)
Theorem validate_query_accepts_no_keyword (query : string) :
  validate_query query = Return true ->
  forall keyword word,
    In keyword FORBIDDEN_KEYWORDS ->
    upper word = keyword ->
    ~ is_substring word query.
Proof.
  unfold validate_query. cbv zeta.
  destruct (startswith "SELECT" (normalize query)); [|discriminate].
  cbn [negb].
  destruct (check_forbidden FORBIDDEN_KEYWORDS (normalize query)) as [[]|e] eqn:E;
    [|discriminate].
  intros _ keyword word Hin Hup Hsub.
  pose proof (proj1 (check_forbidden_return _ _) E keyword Hin) as Hc.
  apply contains_false in Hc. apply Hc.
  destruct (forbidden_keywords_solid keyword Hin) as [Hs He].
  unfold normalize. apply is_substring_strip; auto.
  rewrite <- Hup. now apply is_substring_upper.
Qed.

Lemma validate_query_accepts_no_keyword_witness :
  ~ is_substring "Drop" "select name from customers".
Proof.
  apply (validate_query_accepts_no_keyword "select name from customers"
           eq_refl "DROP" "Drop").
  - left. reflexivity.
  - reflexivity.
Defined.

Lemma check_forbidden_first (keywords : list string) (s : string) :
  check_forbidden keywords s = Return tt \/
  exists keyword,
    In keyword keywords /\
    check_forbidden keywords s
    = Raise (ValueError ("Forbidden operation detected: " ++ keyword)) /\
    contains keyword s = true /\
    forall k, In k (keywords_before keyword keywords) -> contains k s = false.
Proof.
  induction keywords as [|k ks IH]; simpl; [now left|].
  destruct (contains k s) eqn:E.
  - right. exists k. rewrite String.eqb_refl. repeat split; auto.
    intros ? [].
  - destruct IH as [IH | [kw [Hin [Hr [Hc Hb]]]]]; [now left|].
    right. exists kw. repeat split; auto.
    destruct (k =? kw)%string; [intros ? []|].
    intros k' [<- | Hk]; auto.
Qed.

(** X4.  [validate_query] has three outcomes: it returns [True], it
    raises "Only SELECT queries are permitted", or it raises "Forbidden
    operation detected:" with a keyword that occurs in the normalized text
    and is the first of the list to occur, whatever the order of the words
    in the text. *)
Theorem validate_query_outcomes (query : string) :
  validate_query query = Return true \/
  validate_query query
  = Raise (ValueError "Only SELECT queries are permitted") \/
  exists keyword,
    In keyword FORBIDDEN_KEYWORDS /\
    validate_query query
    = Raise (ValueError ("Forbidden operation detected: " ++ keyword)) /\
    contains keyword (normalize query) = true /\
    forall k,
      In k (keywords_before keyword FORBIDDEN_KEYWORDS) ->
      contains k (normalize query) = false.
Proof.
  unfold validate_query. cbv zeta.
  destruct (startswith "SELECT" (normalize query)); cbn [negb]; [|now auto].
  destruct (check_forbidden_first FORBIDDEN_KEYWORDS (normalize query))
    as [H | [kw [Hin [Hr [Hc Hb]]]]].
  - left. now rewrite H.
  - right. right. exists kw. rewrite Hr. auto.
Qed.

(** DELETE stands before DROP in the text, DROP before DELETE in the
    list: DROP is reported. *)
Example validate_query_reports_list_order :
  validate_query "select 1; delete from t; drop table t"
  = Raise (ValueError "Forbidden operation detected: DROP").
Proof. reflexivity. Qed.

(** ** query_database *)

(** X5.  A query the validator refuses never reaches the store: the
    validator's exception is what the tool raises and no connection is
    opened. *)
Theorem query_database_refused (K : Connector) (query : string) (e : exn) :
  validate_query query = Raise e ->
  run (query_database K query) = Raise e /\
  trace (query_database K query) = [].
Proof. intros H. unfold_tools. now rewrite H. Qed.

Lemma query_database_refused_witness :
  run (query_database (pg sample_db) "update customers set mrr = 0")
  = Raise (ValueError "Only SELECT queries are permitted") /\
  trace (query_database (pg sample_db) "update customers set mrr = 0") = [].
Proof.
  apply (query_database_refused (pg sample_db)
           "update customers set mrr = 0"
           (ValueError "Only SELECT queries are permitted")).
  reflexivity.
Defined.

(** X6.  An accepted query is sent as the caller wrote it, not in its
    normalized form and without parameters; the rows of the store are
    returned as they are, an empty list included, and an exception of the
    store is raised as it is, after a rollback. *)
Theorem query_database_accepted (K : Connector) (query : string) :
  validate_query query = Return true ->
  connect K = None ->
  run (query_database K query)
  = match execute K query [] with
    | inl e => Raise e
    | inr rows => Return rows
    end /\
  trace (query_database K query)
  = [Connect; OpenCursor; Execute query []; CloseCursor;
     match execute K query [] with
     | inl _ => Rollback
     | inr _ => Commit
     end].
Proof.
  intros Hv Hc. unfold_tools. rewrite Hv, Hc.
  destruct (execute K query []); split; reflexivity.
Qed.

Lemma query_database_accepted_witness :
  run (query_database (canned (inr [])) "  Select 1") = Return [] /\
  trace (query_database (canned (inr [])) "  Select 1")
  = [Connect; OpenCursor; Execute "  Select 1" []; CloseCursor; Commit].
Proof.
  apply (query_database_accepted (canned (inr [])) "  Select 1");
    reflexivity.
Defined.

(** ** Every tool and resource: cursor, statement, transaction *)

Section Invocations.

Variable str_other : value -> string.
Variable num_eq : value -> value -> bool.

Ltac unfold_resources :=
  cbv [read_resource get_database_schema get_table_list
       with_connection_cursor get_db_connection with_block
       connection_exit cursor_exit cur_execute
       bind ret raise emit lift fetchall fetchone run trace fst snd app].

Ltac case_resource_outcomes :=
  repeat match goal with
    | |- context [connect ?K] => destruct (connect K) as [?|]
    | |- context [execute ?K ?q ?p] => destruct (execute K q p) as [?|?]
    | |- context [schema_loop ?a ?b ?c ?d ?e] =>
        destruct (schema_loop a b c d e)
    | |- context [table_lines ?a ?b] => destruct (table_lines a b)
    end.

(** X7.  In every tool call the cursor is opened once and closed once
    for each connection acquired, also when the statement or the shaping
    of the result raises, and exactly one statement is sent per
    connection. *)
Theorem invoke_cursor_discipline (K : Connector) (call : tool_call) :
  count is_open_cursor (trace (invoke K call))
  = count is_connect (trace (invoke K call)) /\
  count is_close_cursor (trace (invoke K call))
  = count is_connect (trace (invoke K call)) /\
  List.length (sent_sql (trace (invoke K call)))
  = count is_connect (trace (invoke K call)).
Proof.
  destruct call; unfold_tools; case_outcomes; cbn; auto.
Qed.

(** X8.  A tool call that returns has committed the transaction of the
    connection it acquired and rolled nothing back; one that raises has
    committed nothing and rolled back the transaction if it had acquired
    a connection. *)
Theorem invoke_commit_iff_return (K : Connector) (call : tool_call) :
  match run (invoke K call) with
  | Return _ =>
      trace (invoke K call) <> [] /\
      count is_commit (trace (invoke K call)) = 1 /\
      count is_rollback (trace (invoke K call)) = 0
  | Raise _ =>
      count is_commit (trace (invoke K call)) = 0 /\
      count is_rollback (trace (invoke K call))
      = count is_connect (trace (invoke K call))
  end.
Proof.
  destruct call; unfold_tools; case_outcomes; cbn; auto;
    repeat split; auto; discriminate.
Qed.

(** X9.  Reading a resource follows the same discipline as a tool: one
    cursor and one statement per connection, commit exactly when the
    document is returned, rollback when it is not, and no close. *)
Theorem read_resource_discipline (K : Connector) (r : resource) :
  count is_open_cursor (trace (read_resource str_other num_eq K r))
  = count is_connect (trace (read_resource str_other num_eq K r)) /\
  count is_close_cursor (trace (read_resource str_other num_eq K r))
  = count is_connect (trace (read_resource str_other num_eq K r)) /\
  List.length (sent_sql (trace (read_resource str_other num_eq K r)))
  = count is_connect (trace (read_resource str_other num_eq K r)) /\
  count is_close (trace (read_resource str_other num_eq K r)) = 0 /\
  match run (read_resource str_other num_eq K r) with
  | Return _ =>
      count is_commit (trace (read_resource str_other num_eq K r)) = 1 /\
      count is_rollback (trace (read_resource str_other num_eq K r)) = 0
  | Raise _ =>
      count is_commit (trace (read_resource str_other num_eq K r)) = 0 /\
      count is_rollback (trace (read_resource str_other num_eq K r))
      = count is_connect (trace (read_resource str_other num_eq K r))
  end.
Proof.
  destruct r; unfold_resources; case_resource_outcomes; cbn; auto 10.
Qed.

End Invocations.

(** X10.  An exception of the connector is what the tool raises: the one
    of connecting, once the query has passed validation, and the one of
    running the statement the call sends. *)
Theorem invoke_raises_store_exception
  (K : Connector) (call : tool_call) (e : exn) :
  (connect K = Some e ->
   (forall query,
       call = Call_query_database query ->
       validate_query query = Return true) ->
   run (invoke K call) = Raise e) /\
  (forall sql params,
      In (Execute sql params) (trace (invoke K call)) ->
      execute K sql params = inl e ->
      run (invoke K call) = Raise e).
Proof.
  split.
  - intros Hc Hv. destruct call; unfold_tools;
      rewrite ?(Hv _ eq_refl), ?Hc; try reflexivity.
    destruct (get_open_tickets_request priority) as [q ps].
    rewrite ?Hc. reflexivity.
  - intros sql params. destruct call; unfold_tools;
      try destruct (get_open_tickets_request priority) as [q ps];
      try destruct (validate_query query) as [[]|];
      destruct (connect K); cbn -[lookup]; try tauto;
      match goal with
      | |- context [execute K ?q ?ps] =>
          destruct (execute K q ps) as [e0|[|[|col cols] rest]] eqn:E
      end; cbv beta iota;
      try match goal with
        | |- context [lookup ?k ?r] => destruct (lookup k r)
        end; cbn;
      intros Hin He;
      repeat match type of Hin with
        | _ \/ _ => destruct Hin as [Hin | Hin]
        end;
      try discriminate Hin; try contradiction;
      injection Hin as Hq Hp; rewrite <- Hq, <- Hp in He; congruence.
Qed.

Lemma invoke_raises_store_exception_witness :
  run (invoke unreachable (Call_get_open_tickets None))
  = Raise (DatabaseError "could not connect to server") /\
  run (invoke (canned (inl (DatabaseError "deadlock detected")))
         (Call_get_customer_info "asml"))
  = Raise (DatabaseError "deadlock detected").
Proof.
  split.
  - apply (proj1 (invoke_raises_store_exception unreachable
                    (Call_get_open_tickets None)
                    (DatabaseError "could not connect to server")));
      [reflexivity | intros query H; discriminate H].
  - apply (proj2 (invoke_raises_store_exception
                    (canned (inl (DatabaseError "deadlock detected")))
                    (Call_get_customer_info "asml")
                    (DatabaseError "deadlock detected"))
             customer_info_query
             [VText (wildcard_wrap "asml"); VText (wildcard_wrap "asml")]);
      [cbn; tauto | reflexivity].
Defined.

(** ** The health score rule, read backwards *)

Ltac health_cases :=
  unfold health_score;
  repeat match goal with
    | |- context [(?a =? ?b)%N] => destruct (N.eqb_spec a b)
    | |- context [(?a <=? ?b)%N] => destruct (N.leb_spec a b)
    end; cbn [andb].

(** X11.  More open tickets, or more tickets of high priority, never give
    a higher score. *)
Theorem health_score_antitone (o o' h h' : N) :
  (o <= o')%N -> (h <= h')%N ->
  (health_score o' h' <= health_score o h)%N.
Proof. intros Ho Hh. health_cases; lia. Qed.

Lemma health_score_antitone_witness :
  (health_score 6 1 <= health_score 2 0)%N.
Proof. apply (health_score_antitone 2 6 0 1); lia. Defined.

(** X12.  Which counts give which score: 100 is no open ticket, whatever
    the number of high priority tickets; 85 is one or two open tickets and
    none of high priority; 40 is an open ticket and two or more of high
    priority; 60 is six or more open tickets and at most one of high
    priority; 70 is what remains, up to five open tickets and at most one
    of high priority. *)
Theorem health_score_inverse (o h : N) :
  (health_score o h = 100 <-> o = 0)%N /\
  (health_score o h = 85 <-> 1 <= o <= 2 /\ h = 0)%N /\
  (health_score o h = 70 <->
   1 <= o <= 5 /\ h <= 1 /\ (3 <= o \/ h = 1))%N /\
  (health_score o h = 40 <-> 1 <= o /\ 2 <= h)%N /\
  (health_score o h = 60 <-> 6 <= o /\ h <= 1)%N.
Proof. health_cases; repeat split; intros; try discriminate; try lia. Qed.

(** ** get_customer_health_score: rows the statement would not produce *)

(** X13.  [if not result] also takes a first row without columns for "no
    customer", and a first row that has columns but no [health_score]
    makes the tool raise [KeyError], after which the transaction is rolled
    back. *)
Theorem get_customer_health_score_odd_rows
  (K : Connector) (customer_name : string) :
  (forall rest,
      connect K = None ->
      execute K health_score_query [VText (wildcard_wrap customer_name)]
      = inr ([] :: rest) ->
      run (get_customer_health_score K customer_name)
      = Return [("error",
                 VText ("No customer found matching '"
                        ++ customer_name ++ "'"))])
  /\
  (forall col cols rest,
      connect K = None ->
      execute K health_score_query [VText (wildcard_wrap customer_name)]
      = inr ((col :: cols) :: rest) ->
      lookup "health_score" (col :: cols) = None ->
      run (get_customer_health_score K customer_name)
      = Raise (KeyError "health_score") /\
      trace (get_customer_health_score K customer_name)
      = [Connect; OpenCursor;
         Execute health_score_query [VText (wildcard_wrap customer_name)];
         CloseCursor; Rollback]).
Proof.
  split.
  - intros rest Hc He. unfold_tools. now rewrite Hc, He.
  - intros col cols rest Hc He Hl. unfold_tools. rewrite Hc, He, Hl.
    split; reflexivity.
Qed.

Lemma get_customer_health_score_odd_rows_witness :
  run (get_customer_health_score (canned (inr [[]; [("id", VInt 1)]])) "a")
  = Return [("error", VText "No customer found matching 'a'")]
  /\
  run (get_customer_health_score (canned (inr [[("id", VInt 1)]])) "a")
  = Raise (KeyError "health_score").
Proof.
  split.
  - apply (proj1 (get_customer_health_score_odd_rows
                    (canned (inr [[]; [("id", VInt 1)]])) "a")
             [[("id", VInt 1)]]); reflexivity.
  - apply (proj2 (get_customer_health_score_odd_rows
                    (canned (inr [[("id", VInt 1)]])) "a")
             ("id", VInt 1) [] []); reflexivity.
Defined.

(** ** Partial match with a search text free of wildcards *)

Lemma like_ordinary (c : ascii) (p t : string) :
  like_special c = false ->
  like (String c p) t
  = match t with
    | EmptyString => false
    | String d t' => Ascii.eqb c d && like p t'
    end.
Proof.
  destruct c as [[] [] [] [] [] [] [] []]; intros H;
    try discriminate H; destruct t; reflexivity.
Qed.

Lemma like_literal_prefix (s t : string) :
  literal s = true -> like (s ++ "%") t = startswith s t.
Proof.
  revert t. induction s as [|c s IH]; intros t H.
  - apply like_percent_only.
  - cbn [literal] in H. apply andb_true_iff in H as [Hc Hs].
    apply negb_true_iff in Hc.
    change (String c s ++ "%") with (String c (s ++ "%")).
    rewrite like_ordinary by exact Hc.
    destruct t as [|d t]; [reflexivity|]. simpl. now rewrite IH.
Qed.

Lemma like_wrap_literal (s t : string) :
  literal s = true -> like (wildcard_wrap s) t = contains s t.
Proof.
  intros H. unfold wildcard_wrap.
  change ("%" ++ s ++ "%") with (String "%" (s ++ "%")).
  induction t as [|d t IH]; rewrite like_percent, like_literal_prefix by exact H.
  - reflexivity.
  - cbn [contains]. now rewrite IH.
Qed.

Lemma like_special_lower (c : ascii) :
  like_special (lower_char c) = like_special c.
Proof. destruct c as [[] [] [] [] [] [] [] []]; reflexivity. Qed.

Lemma literal_lower (s : string) : literal (lower s) = literal s.
Proof.
  induction s as [|c s IH]; simpl; [reflexivity|].
  now rewrite like_special_lower, IH.
Qed.

Lemma lower_app (a b : string) : lower (a ++ b) = lower a ++ lower b.
Proof.
  induction a as [|c a IH]; simpl; [reflexivity|]. now rewrite IH.
Qed.

(** X14.  For a search text without [%], [_] and backslash, the bound
    pattern matches exactly the names that contain the text, letter case
    aside. *)
Theorem ilike_wrap_is_contains (name search : string) :
  literal search = true ->
  ilike name (wildcard_wrap search)
  = contains (lower search) (lower name).
Proof.
  intros H. unfold ilike.
  assert (E : lower (wildcard_wrap search) = wildcard_wrap (lower search)).
  { unfold wildcard_wrap. now rewrite !lower_app. }
  rewrite E. apply like_wrap_literal. now rewrite literal_lower.
Qed.

Lemma ilike_wrap_is_contains_witness :
  ilike "Accenture" (wildcard_wrap "CENT") = true.
Proof.
  rewrite (ilike_wrap_is_contains "Accenture" "CENT"); reflexivity.
Defined.

(** ** Tools that hand the rows on *)

(** X19.  [get_open_tickets] and [get_at_risk_customers] hand the rows of
    the store to the caller unchanged, the empty list included; an omitted
    [min_mrr] binds the default threshold. *)
Theorem pass_through_tools (K : Connector) (rows : list row) :
  connect K = None ->
  (forall priority,
      execute K (fst (get_open_tickets_request priority))
        (snd (get_open_tickets_request priority)) = inr rows ->
      run (get_open_tickets K priority) = Return rows) /\
  (forall min_mrr,
      execute K at_risk_query [VFloat min_mrr] = inr rows ->
      run (get_at_risk_customers K (Some min_mrr)) = Return rows) /\
  (execute K at_risk_query [VFloat default_min_mrr] = inr rows ->
   run (get_at_risk_customers K None) = Return rows).
Proof.
  intros Hc. repeat split.
  - intros priority He. unfold get_open_tickets.
    destruct (get_open_tickets_request priority) as [q ps].
    cbn [fst snd] in He. unfold_tools. now rewrite Hc, He.
  - intros m He. unfold_tools. now rewrite Hc, He.
  - intros He. unfold_tools. now rewrite Hc, He.
Qed.

Lemma pass_through_tools_witness :
  run (get_open_tickets (canned (inr [])) (Some "High")) = Return [].
Proof.
  apply (proj1 (pass_through_tools (canned (inr [])) [] eq_refl)).
  reflexivity.
Defined.

(** ** Resources *)

Section ResourceProperties.

Variable str_other : value -> string.
Variable num_eq : value -> value -> bool.

Lemma cell_eqb_text (t : string) (v : value) :
  cell_eqb num_eq (VText t) v = true -> v = VText t.
Proof.
  destruct v; simpl; try discriminate.
  intros H. apply String.eqb_eq in H. now subst.
Qed.

Lemma schema_loop_row (t : string) (col : schema_column) (rest : list row)
  (cur : value) (text : string) :
  schema_loop str_other num_eq (schema_row t col :: rest) cur text
  = schema_loop str_other num_eq rest (VText t)
      ((if cell_eqb num_eq (VText t) cur then text
        else text ++ table_heading str_other (VText t))
       ++ render_column col).
Proof.
  destruct col as [[cn dt] nu].
  cbn [schema_loop].
  change (lookup "table_name" (schema_row t (cn, dt, nu)))
    with (Some (VText t)).
  change (lookup "is_nullable" (schema_row t (cn, dt, nu)))
    with (Some (VText nu)).
  change (lookup "column_name" (schema_row t (cn, dt, nu)))
    with (Some (VText cn)).
  change (lookup "data_type" (schema_row t (cn, dt, nu)))
    with (Some (VText dt)).
  cbv beta iota.
  destruct (cell_eqb num_eq (VText t) cur) eqn:E; cbn [negb].
  - apply cell_eqb_text in E. subst cur. reflexivity.
  - reflexivity.
Qed.

Lemma schema_loop_columns (t : string) (cols : list schema_column)
  (rest : list row) (text : string) :
  schema_loop str_other num_eq (map (schema_row t) cols ++ rest)%list
    (VText t) text
  = schema_loop str_other num_eq rest (VText t)
      (text ++ join_all (map render_column cols)).
Proof.
  revert text. induction cols as [|col cols IH]; intros text.
  - cbn [map app join_all fold_right].
    f_equal. induction text as [|c text IHt]; simpl; [reflexivity|].
    now rewrite <- IHt.
  - cbn [map app]. rewrite schema_loop_row.
    cbn [cell_eqb]. rewrite String.eqb_refl, IH.
    cbn [join_all fold_right]. now rewrite append_assoc.
Qed.

Lemma schema_loop_tables (tables : list (string * list schema_column))
  (cur : value) (text : string) :
  well_grouped tables ->
  match tables with
  | [] => True
  | t :: _ => cell_eqb num_eq (VText (fst t)) cur = false
  end ->
  schema_loop str_other num_eq (flat_map rows_of_table tables) cur text
  = Return (text ++ join_all (map render_table tables)).
Proof.
  revert cur text. induction tables as [|[t cols] rest IH];
    intros cur text Hg Hcur.
  - cbn. f_equal. induction text as [|c text IHt]; simpl; [reflexivity|].
    now rewrite <- IHt.
  - cbn [well_grouped fst snd] in Hg. destruct Hg as [Hne [Hnext Hg]].
    destruct cols as [|col cols]; [now elim Hne|].
    cbn [fst] in Hcur.
    cbn [flat_map rows_of_table fst snd map app].
    rewrite schema_loop_row, Hcur, schema_loop_columns, IH.
    + f_equal. unfold render_table, join_all, table_heading.
      cbn [map fold_right fst snd str_value].
      now rewrite !append_assoc.
    + exact Hg.
    + destruct rest as [|[u ucols] rest]; [exact I|].
      cbn [fst] in *. cbn [cell_eqb]. apply String.eqb_neq. congruence.
Qed.

(** X20.  When the rows come table by table, as the [ORDER BY] of the
    statement delivers them, the schema document is the heading followed,
    for each table in turn, by one table heading and one line per column
    in row order; a column is marked NULL exactly when [is_nullable] is the
    text YES. *)
Theorem get_database_schema_grouped
  (K : Connector) (tables : list (string * list schema_column)) :
  well_grouped tables ->
  connect K = None ->
  execute K schema_query [] = inr (flat_map rows_of_table tables) ->
  run (get_database_schema str_other num_eq K)
  = Return (schema_heading ++ join_all (map render_table tables)).
Proof.
  intros Hg Hc He. unfold_tools. unfold get_database_schema.
  unfold_tools. rewrite Hc, He.
  rewrite schema_loop_tables; [reflexivity | exact Hg |].
  destruct tables as [|[t cols] rest]; [exact I | reflexivity].
Qed.

Ltac schema_step r :=
  cbn [schema_loop forallb]; unfold has_schema_keys;
  destruct (lookup "table_name" r) as [?tn|];
  [destruct (lookup "is_nullable" r) as [?nu|];
   [destruct (lookup "column_name" r) as [?cn|];
    [destruct (lookup "data_type" r) as [?dt|]|]|]|];
  try match goal with
    | |- context [negb ?b] => destruct (negb b)
    end; cbv beta iota; cbn [andb].

Lemma schema_loop_returns (results : list row) (cur : value) (text : string) :
  (exists doc, schema_loop str_other num_eq results cur text = Return doc)
  <-> forallb has_schema_keys results = true.
Proof.
  revert cur text. induction results as [|r rest IH]; intros cur text.
  - cbn. split; [reflexivity | intros _; now exists text].
  - schema_step r; try apply IH;
      (split; [intros [doc H]; discriminate H | discriminate]).
Qed.

Lemma schema_loop_extends (results : list row) (cur : value)
  (text doc : string) :
  schema_loop str_other num_eq results cur text = Return doc ->
  startswith text doc = true.
Proof.
  revert cur text. induction results as [|r rest IH]; intros cur text.
  - cbn. intros H. injection H as <-. apply startswith_app. exists "".
    induction text as [|c text IHt]; simpl; [reflexivity|]. now rewrite <- IHt.
  - schema_step r; try discriminate; intros H; apply IH in H;
      apply startswith_app in H; destruct H as [x Hx];
      apply startswith_app; rewrite Hx, ?append_assoc; eexists; reflexivity.
Qed.

Lemma schema_loop_raises (results : list row) (cur : value)
  (text : string) (e : exn) :
  schema_loop str_other num_eq results cur text = Raise e ->
  exists key,
    e = KeyError key /\
    In key ["table_name"; "is_nullable"; "column_name"; "data_type"].
Proof.
  revert cur text. induction results as [|r rest IH]; intros cur text.
  - discriminate.
  - schema_step r; try apply IH; intros H; injection H as <-;
      eexists; (split; [reflexivity|]); simpl; tauto.
Qed.

(** X21.  The schema document is produced exactly when every row has the
    four columns the loop reads, and it then begins with the heading; when
    a row lacks one, the resource raises [KeyError] for one of the four
    names and returns no part of the document. *)
Theorem get_database_schema_keys (K : Connector) (results : list row) :
  connect K = None ->
  execute K schema_query [] = inr results ->
  (forallb has_schema_keys results = true ->
   exists doc,
     run (get_database_schema str_other num_eq K) = Return doc /\
     startswith schema_heading doc = true) /\
  (forallb has_schema_keys results = false ->
   exists key,
     run (get_database_schema str_other num_eq K) = Raise (KeyError key) /\
     In key ["table_name"; "is_nullable"; "column_name"; "data_type"]).
Proof.
  intros Hc He.
  assert (Hrun : run (get_database_schema str_other num_eq K)
                 = schema_loop str_other num_eq results VNull schema_heading).
  { unfold get_database_schema. unfold_tools. rewrite Hc, He.
    destruct (schema_loop _ _ _ _ _); reflexivity. }
  rewrite Hrun. split; intros Hk.
  - apply (schema_loop_returns results VNull schema_heading) in Hk.
    destruct Hk as [doc Hd]. exists doc. split; [exact Hd|].
    now apply schema_loop_extends in Hd.
  - destruct (schema_loop str_other num_eq results VNull schema_heading)
      as [doc|e] eqn:E.
    + assert (Ht : forallb has_schema_keys results = true)
        by (apply (schema_loop_returns results VNull schema_heading);
            now exists doc).
      congruence.
    + apply schema_loop_raises in E. destruct E as [key [-> Hin]].
      now exists key.
Qed.

End ResourceProperties.

(** *** get_table_list *)

Section TableList.

Variable str_other : value -> string.

Lemma table_lines_spec (results : list row) :
  match table_lines str_other results with
  | Return lines => map (table_line_of str_other) results = map Some lines
  | Raise e =>
      exists key,
        e = KeyError key /\ In key ["table_name"; "size"] /\
        exists r, In r results /\ table_line_of str_other r = None
  end.
Proof.
  induction results as [|r rest IH]; [reflexivity|].
  cbn [table_lines map].
  assert (Hr : table_line_of str_other r
               = match lookup "table_name" r, lookup "size" r with
                 | Some table_name, Some size =>
                     Some (table_line str_other table_name size)
                 | _, _ => None
                 end) by reflexivity.
  destruct (lookup "table_name" r) as [tn|].
  - destruct (lookup "size" r) as [sz|].
    + destruct (table_lines str_other rest) as [lines|e].
      * cbn [map]. rewrite Hr. f_equal. exact IH.
      * destruct IH as [key [-> [Hk [r' [Hin Hn]]]]].
        exists key. repeat split; auto. exists r'. split; [now right | exact Hn].
    + exists "size". repeat split; [simpl; tauto|].
      exists r. split; [now left | exact Hr].
  - exists "table_name". repeat split; [simpl; tauto|].
    exists r. split; [now left | exact Hr].
Qed.

(** X22.  The table list is one line per row, joined by line feeds with
    none at the end, and the empty text for no row; it is produced exactly
    when every row has a [table_name] and a [size], otherwise the resource
    raises [KeyError] for one of the two names. *)
Theorem get_table_list_lines (K : Connector) (results : list row) :
  connect K = None ->
  execute K table_list_query [] = inr results ->
  (forall lines,
      map (table_line_of str_other) results = map Some lines ->
      run (get_table_list str_other K) = Return (String.concat nl lines) /\
      List.length lines = List.length results) /\
  (results = [] -> run (get_table_list str_other K) = Return "") /\
  (forall r,
      In r results -> table_line_of str_other r = None ->
      exists key,
        run (get_table_list str_other K) = Raise (KeyError key) /\
        In key ["table_name"; "size"]).
Proof.
  intros Hc He.
  assert (Hrun : run (get_table_list str_other K)
                 = match table_lines str_other results with
                   | Return lines => Return (String.concat nl lines)
                   | Raise e => Raise e
                   end).
  { unfold get_table_list. unfold_tools. rewrite Hc, He.
    destruct (table_lines _ _); reflexivity. }
  rewrite Hrun. pose proof (table_lines_spec results) as Hs.
  split; [|split].
  - intros lines Hl.
    destruct (table_lines str_other results) as [lines'|e].
    + rewrite Hl in Hs.
      assert (lines = lines').
      { clear -Hs. revert lines' Hs.
        induction lines as [|l lines IH]; intros [|l' lines'] H;
          try discriminate H; [reflexivity|].
        cbn [map] in H. injection H as -> H. f_equal. now apply IH. }
      subst lines'. split; [reflexivity|].
      apply (f_equal (@List.length (option string))) in Hl.
      now rewrite !length_map in Hl.
    + destruct Hs as [key [_ [_ [r [Hin Hn]]]]].
      exfalso. apply (in_map (table_line_of str_other)) in Hin.
      rewrite Hl, Hn in Hin. apply in_map_iff in Hin.
      destruct Hin as [x [Hx _]]. discriminate Hx.
  - intros ->. reflexivity.
  - intros r Hin Hn.
    destruct (table_lines str_other results) as [lines|e].
    + exfalso. apply (in_map (table_line_of str_other)) in Hin.
      rewrite Hs, Hn in Hin. apply in_map_iff in Hin.
      destruct Hin as [x [Hx _]]. discriminate Hx.
    + destruct Hs as [key [-> [Hk _]]]. now exists key.
Qed.

End TableList.

Lemma get_database_schema_grouped_witness :
  run (get_database_schema sample_str_other sample_num_eq
         (canned (inr (flat_map rows_of_table sample_schema))))
  = Return (schema_heading ++ join_all (map render_table sample_schema)).
Proof.
  apply (get_database_schema_grouped sample_str_other sample_num_eq
           (canned (inr (flat_map rows_of_table sample_schema)))
           sample_schema).
  - cbn. repeat split; discriminate.
  - reflexivity.
  - reflexivity.
Defined.

Lemma get_database_schema_keys_witness :
  (exists doc,
      run (get_database_schema sample_str_other sample_num_eq
             (canned (inr (flat_map rows_of_table sample_schema))))
      = Return doc /\
      startswith schema_heading doc = true) /\
  (exists key,
      run (get_database_schema sample_str_other sample_num_eq
             (canned (inr sample_tables)))
      = Raise (KeyError key) /\
      In key ["table_name"; "is_nullable"; "column_name"; "data_type"]).
Proof.
  split.
  - apply (proj1 (get_database_schema_keys sample_str_other sample_num_eq
                    (canned (inr (flat_map rows_of_table sample_schema)))
                    (flat_map rows_of_table sample_schema)
                    eq_refl eq_refl)).
    reflexivity.
  - apply (proj2 (get_database_schema_keys sample_str_other sample_num_eq
                    (canned (inr sample_tables)) sample_tables
                    eq_refl eq_refl)).
    reflexivity.
Defined.

Lemma get_table_list_lines_witness :
  run (get_table_list sample_str_other (canned (inr sample_tables)))
  = Return (String.concat nl
              ["- customers (48 kB)"; "- support_tickets (64 kB)"]) /\
  List.length ["- customers (48 kB)"; "- support_tickets (64 kB)"]
  = List.length sample_tables.
Proof.
  apply (proj1 (get_table_list_lines sample_str_other
                  (canned (inr sample_tables)) sample_tables
                  eq_refl eq_refl)).
  reflexivity.
Defined.

(** ** Server startup *)

(** X23.  The connection test never raises: it answers [true] and has
    closed the connection it opened, or it answers [false], where the
    script exits with status 1, and nothing was opened. *)
Theorem startup_probe_outcome (K : Connector) :
  (connect K = None /\
   run (startup_probe K) = Return true /\
   trace (startup_probe K) = [Connect; Close]) \/
  ((exists e, connect K = Some e) /\
   run (startup_probe K) = Return false /\
   trace (startup_probe K) = []).
Proof.
  unfold_tools. destruct (connect K) as [e|].
  - right. repeat split. now exists e.
  - left. repeat split.
Qed.

(** The two resource statements are the texts of [server.py] too. *)
Example resource_query_text_lengths :
  (String.length schema_query, String.length table_list_query) = (241, 235).
Proof. vm_compute. reflexivity. Qed.

(** The default threshold is the number 20000, as a binary64 value. *)
Example default_min_mrr_value :
  default_min_mrr = S754_finite false (20000 * 2 ^ 38) (-38) /\
  bounded 53 1024 (20000 * 2 ^ 38) (-38) = true.
Proof. split; reflexivity. Qed.

(** * The statements of the catalog, evaluated from their text *)

Arguments column_value : simpl never.

Lemma parse_open_tickets :
  parse_sql (open_tickets_query ++ order_clause)
  = Some (open_tickets_statement open_status_cond).
Proof. vm_compute. reflexivity. Qed.

Lemma parse_open_tickets_priority :
  parse_sql ((open_tickets_query ++ priority_clause) ++ order_clause)
  = Some (open_tickets_statement (CAnd open_status_cond priority_cond)).
Proof. vm_compute. reflexivity. Qed.

Lemma map_err_In {A B} (f : A -> exn + B) (l : list A) (l' : list B) :
  map_err f l = inr l' ->
  forall y, In y l' <-> exists x, In x l /\ f x = inr y.
Proof.
  revert l'. induction l as [|a l IH]; intros l' H y; cbn in H.
  - injection H as <-. split; [intros [] | intros [x [[] _]]].
  - destruct (f a) as [e|b] eqn:Ea; [discriminate|].
    destruct (map_err f l) as [e|bs] eqn:El; [discriminate|].
    injection H as <-. specialize (IH bs eq_refl y). cbn. rewrite IH. split.
    + intros [<- | [x [Hx Hf]]]; [exists a; auto | exists x; auto].
    + intros [x [[<- | Hx] Hf]]; [left; congruence | right; now exists x].
Qed.

Lemma map_err_ext {A B} (f g : A -> exn + B) (l : list A) :
  (forall x, f x = g x) -> map_err f l = map_err g l.
Proof.
  intros H. induction l as [|a l IH]; cbn; [reflexivity|].
  now rewrite H, IH.
Qed.

Lemma filter_err_In {A} (f : A -> exn + bool) (l l' : list A) :
  filter_err f l = inr l' ->
  forall x, In x l' <-> In x l /\ f x = inr true.
Proof.
  revert l'. induction l as [|a l IH]; intros l' H x; cbn in H.
  - injection H as <-. split; [intros [] | intros [[] _]].
  - destruct (f a) as [e|b] eqn:Ea; [discriminate|].
    destruct (filter_err f l) as [e|ys] eqn:El; [discriminate|].
    injection H as <-. specialize (IH ys eq_refl x).
    destruct b; cbn; rewrite IH; split.
    + intros [<- | [Hx Hf]]; auto.
    + intros [[<- | Hx] Hf]; auto.
    + intros [Hx Hf]; auto.
    + intros [[<- | Hx] Hf]; [congruence | auto].
Qed.

Lemma filter_err_ext {A} (f g : A -> exn + bool) (l : list A) :
  (forall x, f x = g x) -> filter_err f l = filter_err g l.
Proof.
  intros H. induction l as [|a l IH]; cbn; [reflexivity|].
  now rewrite H, IH.
Qed.

(** The rows of the join of [get_open_tickets], and the row the select
    list makes of one of them; neither reads a parameter. *)
Lemma eval_open_tickets (T : store) (params : list value) (w : cond) :
  eval_statement T params (open_tickets_statement w)
  = (envs <-! from_envs T [] [] (open_tickets_select open_status_cond) ;;
     kept <-! filter_err (holds T params (Some w)) envs ;;
     map_err (fun e => build_row T [] [e] open_tickets_items []) kept).
Proof.
  unfold eval_statement, open_tickets_statement, eval_select.
  cbn [st_with st_body].
  assert (Hf : from_envs T params [] (open_tickets_select w)
               = from_envs T [] [] (open_tickets_select open_status_cond)).
  { unfold from_envs. cbn [sel_table sel_join sel_alias open_tickets_select].
    destruct (table_rows T [] "support_tickets") as [e|left]; [reflexivity|].
    destruct (table_rows T [] _) as [e|right]; [reflexivity|].
    erewrite map_err_ext; [reflexivity|].
    intros l. unfold join_row. erewrite filter_err_ext; [reflexivity|].
    intros r. reflexivity. }
  rewrite Hf.
  destruct (from_envs T [] [] _) as [e|envs]; [reflexivity|].
  cbn [sel_where open_tickets_select].
  destruct (filter_err _ envs) as [e|kept]; [reflexivity|].
  unfold groups_of. cbn [sel_group sel_items open_tickets_select existsb
                          open_tickets_items is_aggregate orb].
  induction kept as [|e kept IH]; [reflexivity|].
  cbn [map map_err]. cbn [map map_err] in IH.
  replace (build_row T params [e] open_tickets_items [])
    with (build_row T [] [e] open_tickets_items []) by reflexivity.
  destruct (build_row T [] [e] open_tickets_items []); [reflexivity|].
  now rewrite IH.
Qed.

Lemma parse_customer_info :
  parse_sql customer_info_query = Some customer_info_statement.
Proof. vm_compute. reflexivity. Qed.

Lemma parse_health_score :
  parse_sql health_score_query = Some health_score_statement.
Proof. vm_compute. reflexivity. Qed.

Lemma sql_store_answers (T : store) : answers T (sql_store T).
Proof.
  split; [reflexivity|].
  intros sql params rows s Hp He. cbn in He. unfold sql_execute in He.
  rewrite Hp in He. exists rows. split; [exact He | apply Permutation_refl].
Qed.

(** ** Rows as dictionaries *)

Lemma lookup_row_set_same (k : string) (v : value) (r : row) :
  lookup k (row_set k v r) = Some v.
Proof.
  induction r as [|[k' w] r IH]; cbn.
  - now rewrite String.eqb_refl.
  - destruct (k' =? k)%string eqn:E; cbn; now rewrite E.
Qed.

Lemma lookup_row_set_other (k k' : string) (v : value) (r : row) :
  k <> k' -> lookup k (row_set k' v r) = lookup k r.
Proof.
  intros Hne. induction r as [|[k0 w] r IH]; cbn.
  - apply String.eqb_neq in Hne. now rewrite String.eqb_sym, Hne.
  - destruct (k0 =? k')%string eqn:E; cbn.
    + apply String.eqb_eq in E. subst k0.
      destruct (k' =? k)%string eqn:E'; [|reflexivity].
      apply String.eqb_eq in E'. congruence.
    + now rewrite IH.
Qed.

(** A column written into the row stays as written when no later item
    may write it. *)
Lemma build_row_keeps (T : store) (params : list value) (g : list env)
  (items : list item) (acc r : row) (a : string) (v : value) :
  build_row T params g items acc = inr r ->
  forallb (fun i => negb (may_write a i)) items = true ->
  lookup a acc = Some v ->
  lookup a r = Some v.
Proof.
  revert acc. induction items as [|i items IH]; intros acc H Hw Ha.
  - cbn in H. now injection H as <-.
  - cbn [forallb] in Hw. apply andb_true_iff in Hw as [Hi Hw].
    destruct i as [q|x alias]; [discriminate Hi|].
    cbn [build_row] in H.
    destruct (eval_item T params g x) as [e|w]; [discriminate|].
    apply (IH _ H Hw). rewrite lookup_row_set_other; [exact Ha|].
    cbn [may_write] in Hi. apply negb_true_iff, String.eqb_neq in Hi.
    congruence.
Qed.

Lemma build_row_sets (T : store) (params : list value) (g : list env)
  (x : expr) (alias : option string) (items : list item) (acc r : row) :
  build_row T params g (IExpr x alias :: items) acc = inr r ->
  forallb (fun i => negb (may_write (item_name x alias) i)) items = true ->
  exists v,
    eval_item T params g x = inr v /\
    lookup (item_name x alias) r = Some v.
Proof.
  intros H Hw. cbn [build_row] in H.
  destruct (eval_item T params g x) as [e|v]; [discriminate|].
  exists v. split; [reflexivity|].
  apply (build_row_keeps _ _ _ _ _ _ _ _ H Hw), lookup_row_set_same.
Qed.

(** Skipping the items before the one of interest. *)
Lemma build_row_tail (T : store) (params : list value) (g : list env)
  (i : item) (items : list item) (acc r : row) :
  build_row T params g (i :: items) acc = inr r ->
  exists acc', build_row T params g items acc' = inr r.
Proof.
  destruct i as [q|x alias]; cbn [build_row].
  - destruct g as [|e g]; [discriminate|].
    destruct (star_columns e q); [discriminate|]. eauto.
  - destruct (eval_item T params g x); [discriminate|]. eauto.
Qed.

(** ** The conditions of get_open_tickets *)

Lemma holds_and (T : store) (params : list value) (a b : cond) (e : env) :
  holds T params (Some (CAnd a b)) e = inr true <->
  holds T params (Some a) e = inr true /\
  holds T params (Some b) e = inr true.
Proof.
  cbn [holds eval_cond].
  destruct (eval_cond T params e a) as [ea|[[]|]];
    destruct (eval_cond T params e b) as [eb|[[]|]]; cbn;
    split; try intros [H1 H2]; try intros H; try discriminate; auto.
Qed.

Lemma holds_priority (T : store) (p : string) (e : env) :
  holds T [VText p] (Some priority_cond) e = inr true <->
  column_value e (Some "t") "priority" = inr (VText p).
Proof.
  cbn [holds eval_cond eval_expr priority_cond nth_error as_value].
  destruct (column_value e (Some "t") "priority") as [err|v]; cbn.
  - split; discriminate.
  - destruct v; cbn; split; intros H; try discriminate.
    + destruct (s =? p)%string eqn:E; [|discriminate].
      apply String.eqb_eq in E. now subst.
    + injection H as ->. now rewrite String.eqb_refl.
Qed.

Lemma holds_open_status (T : store) (params : list value) (e : env) :
  holds T params (Some open_status_cond) e = inr true <->
  column_value e (Some "t") "status" = inr (VText "Open") \/
  column_value e (Some "t") "status" = inr (VText "In Progress").
Proof.
  cbn [holds eval_cond eval_expr open_status_cond as_value in_values].
  destruct (column_value e (Some "t") "status") as [err|v]; cbn.
  - split; [discriminate | intros [H|H]; discriminate].
  - destruct v; cbn; split; intros H;
      try discriminate; try (destruct H; discriminate).
    + destruct (s =? "Open")%string eqn:E1.
      * apply String.eqb_eq in E1. left. now subst.
      * destruct (s =? "In Progress")%string eqn:E2; [|discriminate].
        apply String.eqb_eq in E2. right. now subst.
    + destruct H as [H|H]; injection H as ->; reflexivity.
Qed.

(** The row of a joined pair carries the status and the priority of its
    ticket. *)
Lemma open_ticket_row_columns (T : store) (e : env) (r : row) :
  build_row T [] [e] open_tickets_items [] = inr r ->
  exists vs vp,
    column_value e (Some "t") "status" = inr vs /\
    lookup "status" r = Some vs /\
    column_value e (Some "t") "priority" = inr vp /\
    lookup "priority" r = Some vp.
Proof.
  intros H. unfold open_tickets_items in H.
  apply build_row_tail in H as [acc1 H].
  apply build_row_tail in H as [acc2 H].
  pose proof H as Hs.
  apply build_row_sets in Hs as [vs [Es Ls]]; [|reflexivity].
  apply build_row_tail in H as [acc3 H].
  apply build_row_sets in H as [vp [Ep Lp]]; [|reflexivity].
  cbn [item_name] in Ls, Lp. cbn [eval_item eval_expr] in Es, Ep.
  exists vs, vp.
  destruct (column_value e (Some "t") "status") as [?|vs'];
    [discriminate|]. cbn in Es. injection Es as ->.
  destruct (column_value e (Some "t") "priority") as [?|vp'];
    [discriminate|]. cbn in Ep. injection Ep as ->.
  auto.
Qed.

(** What the two statements of get_open_tickets select, one relative to
    the other. *)
Lemma open_tickets_rows (T : store) (p : string) (rows1 rows0 : list row) :
  eval_statement T [VText p]
    (open_tickets_statement (CAnd open_status_cond priority_cond))
  = inr rows1 ->
  eval_statement T [] (open_tickets_statement open_status_cond) = inr rows0 ->
  (forall r,
      In r rows1 <-> In r rows0 /\ lookup "priority" r = Some (VText p)) /\
  (forall r,
      In r rows0 ->
      lookup "status" r = Some (VText "Open") \/
      lookup "status" r = Some (VText "In Progress")).
Proof.
  rewrite !eval_open_tickets.
  destruct (from_envs T [] [] _) as [err|envs]; [discriminate|].
  destruct (filter_err (holds T [VText p] _) envs) as [err|kept1] eqn:F1;
    [discriminate|].
  destruct (filter_err (holds T [] _) envs) as [err|kept0] eqn:F0;
    [discriminate|].
  intros M1 M0.
  pose proof (filter_err_In _ _ _ F1) as K1.
  pose proof (filter_err_In _ _ _ F0) as K0.
  pose proof (map_err_In _ _ _ M1) as R1.
  pose proof (map_err_In _ _ _ M0) as R0.
  split.
  - intros r. rewrite R1, R0. split.
    + intros [e [He Hb]]. apply K1 in He as [Hin Hh].
      apply holds_and in Hh as [Hw Hp]. apply holds_priority in Hp.
      split.
      * exists e. split; [|exact Hb]. apply K0. split; [exact Hin|].
        apply holds_open_status. now apply holds_open_status in Hw.
      * apply open_ticket_row_columns in Hb as [vs [vp [_ [_ [Ep Lp]]]]].
        congruence.
    + intros [[e [He Hb]] Hl]. exists e. split; [|exact Hb].
      apply K0 in He as [Hin Hw]. apply K1. split; [exact Hin|].
      apply holds_and. split.
      * apply holds_open_status. now apply holds_open_status in Hw.
      * apply holds_priority.
        apply open_ticket_row_columns in Hb as [vs [vp [_ [_ [Ep Lp]]]]].
        congruence.
  - intros r Hr. apply R0 in Hr as [e [He Hb]].
    apply K0 in He as [_ Hw]. apply holds_open_status in Hw.
    apply open_ticket_row_columns in Hb as [vs [vp [Es [Ls _]]]].
    destruct Hw as [Hw|Hw]; rewrite Hw in Es; injection Es as <-; auto.
Qed.

Lemma open_tickets_rows_all (T : store) (rows0 : list row) :
  eval_statement T [] (open_tickets_statement open_status_cond) = inr rows0 ->
  exists envs,
    from_envs T [] [] (open_tickets_select open_status_cond) = inr envs /\
    forall r,
      In r rows0 <->
      exists e,
        In e envs /\
        (column_value e (Some "t") "status" = inr (VText "Open") \/
         column_value e (Some "t") "status" = inr (VText "In Progress")) /\
        build_row T [] [e] open_tickets_items [] = inr r.
Proof.
  rewrite eval_open_tickets.
  destruct (from_envs T [] [] _) as [err|envs]; [discriminate|].
  destruct (filter_err (holds T [] _) envs) as [err|kept0] eqn:F0;
    [discriminate|].
  intros M0. exists envs. split; [reflexivity|]. intros r.
  rewrite (map_err_In _ _ _ M0). split.
  - intros [e [He Hb]]. apply (filter_err_In _ _ _ F0) in He as [Hin Hw].
    exists e. repeat split; auto. now apply holds_open_status in Hw.
  - intros [e [Hin [Hw Hb]]]. exists e. split; [|exact Hb].
    apply (filter_err_In _ _ _ F0). split; [exact Hin|].
    now apply holds_open_status.
Qed.

Lemma run_get_open_tickets (K : Connector) (priority : option string) :
  connect K = None ->
  run (get_open_tickets K priority)
  = match execute K (fst (get_open_tickets_request priority))
            (snd (get_open_tickets_request priority)) with
    | inl e => Raise e
    | inr rows => Return rows
    end.
Proof.
  intros Hc. unfold get_open_tickets.
  destruct (get_open_tickets_request priority) as [q ps]. cbn [fst snd].
  unfold_tools. rewrite Hc. now destruct (execute K q ps).
Qed.

(** C8.  Over a store of whatever state, and a connector that answers
    over it: the statement [get_open_tickets] sends without a priority has
    the status test as its whole condition, and its rows are those of the
    joined tickets whose status is Open or In Progress, whatever their
    priority; with a non-empty priority the statement has the equality on
    the priority besides, its rows are the rows of the first that carry
    that priority, and so they are among them. *)
Theorem get_open_tickets_filter_subset
  (T : store) (K : Connector) (c : ascii) (p : string)
  (filtered unfiltered : list row) :
  answers T K ->
  run (get_open_tickets K (Some (String c p))) = Return filtered ->
  run (get_open_tickets K None) = Return unfiltered ->
  (exists sql0 sql1,
      get_open_tickets_request None = (sql0, []) /\
      get_open_tickets_request (Some (String c p))
      = (sql1, [VText (String c p)]) /\
      parse_sql sql0 = Some (open_tickets_statement open_status_cond) /\
      parse_sql sql1
      = Some (open_tickets_statement (CAnd open_status_cond priority_cond)))
  /\
  (exists envs,
      from_envs T [] [] (open_tickets_select open_status_cond) = inr envs /\
      forall r,
        In r unfiltered <->
        exists e,
          In e envs /\
          (column_value e (Some "t") "status" = inr (VText "Open") \/
           column_value e (Some "t") "status" = inr (VText "In Progress")) /\
          build_row T [] [e] open_tickets_items [] = inr r)
  /\
  (forall r,
      In r unfiltered ->
      lookup "status" r = Some (VText "Open") \/
      lookup "status" r = Some (VText "In Progress"))
  /\
  (forall r,
      In r filtered <->
      In r unfiltered /\ lookup "priority" r = Some (VText (String c p)))
  /\
  incl filtered unfiltered.
Proof.
  intros [Hc Ha] Hf Hu.
  rewrite run_get_open_tickets in Hf, Hu by exact Hc.
  rewrite get_open_tickets_request_truthy in Hf, Hu.
  cbn [truthy fst snd] in Hf, Hu.
  destruct (execute K ((open_tickets_query ++ priority_clause)
                         ++ order_clause) [VText (String c p)])
    as [e1|rows1] eqn:E1; [discriminate|]. injection Hf as ->.
  destruct (execute K (open_tickets_query ++ order_clause) [])
    as [e0|rows0] eqn:E0; [discriminate|]. injection Hu as ->.
  destruct (Ha _ _ _ _ parse_open_tickets_priority E1) as [m1 [M1 P1]].
  destruct (Ha _ _ _ _ parse_open_tickets E0) as [m0 [M0 P0]].
  destruct (open_tickets_rows T _ _ _ M1 M0) as [Hsub Hst].
  destruct (open_tickets_rows_all T _ M0) as [envs [Hfrom Hall]].
  assert (In1 : forall r, In r filtered <-> In r m1).
  { intros r. split; apply Permutation_in; [|symmetry]; exact P1. }
  assert (In0 : forall r, In r unfiltered <-> In r m0).
  { intros r. split; apply Permutation_in; [|symmetry]; exact P0. }
  split; [|split; [|split; [|split]]].
  - exists (open_tickets_query ++ order_clause),
      ((open_tickets_query ++ priority_clause) ++ order_clause).
    rewrite !get_open_tickets_request_truthy. cbn [truthy].
    split; [reflexivity|]. split; [reflexivity|].
    split; [exact parse_open_tickets | exact parse_open_tickets_priority].
  - exists envs. split; [exact Hfrom|]. intros r. now rewrite In0, Hall.
  - intros r Hr. apply Hst. now apply In0.
  - intros r. now rewrite In1, In0, Hsub.
  - intros r Hr. apply In0. apply In1 in Hr. now apply Hsub in Hr.
Qed.

Lemma get_open_tickets_filter_subset_witness :
  incl [[("id", VInt 10); ("subject", VText "Login fails");
         ("status", VText "Open"); ("priority", VText "High");
         ("created_at", VTimestamp 172800); ("customer_name", VText "ASML");
         ("subscription_tier", VText "Enterprise"); ("mrr", VInt 50000);
         ("country", VText "NL"); ("days_open", VInt 8)]]
    [[("id", VInt 10); ("subject", VText "Login fails");
      ("status", VText "Open"); ("priority", VText "High");
      ("created_at", VTimestamp 172800); ("customer_name", VText "ASML");
      ("subscription_tier", VText "Enterprise"); ("mrr", VInt 50000);
      ("country", VText "NL"); ("days_open", VInt 8)];
     [("id", VInt 11); ("subject", VText "Slow export");
      ("status", VText "In Progress"); ("priority", VText "Low");
      ("created_at", VTimestamp 259200);
      ("customer_name", VText "Accenture");
      ("subscription_tier", VText "Pro"); ("mrr", VInt 30000);
      ("country", VText "IE"); ("days_open", VInt 7)]].
Proof.
  apply (get_open_tickets_filter_subset sample_store (sql_store sample_store)
           "H" "igh" _ _ (sql_store_answers sample_store)
           eq_refl eq_refl).
Defined.

(** ** When a statement selects at least one row *)

Lemma filter_err_total {A} (f : A -> exn + bool) (l l' : list A) :
  filter_err f l = inr l' -> forall x, In x l -> exists b, f x = inr b.
Proof.
  revert l'. induction l as [|a l IH]; intros l' H x Hx; [destruct Hx|].
  cbn in H. destruct (f a) as [e|b] eqn:Ea; [discriminate|].
  destruct (filter_err f l) as [e|ys]; [discriminate|].
  destruct Hx as [<- | Hx]; [now exists b | now apply (IH ys)].
Qed.

Lemma map_err_length {A B} (f : A -> exn + B) (l : list A) (l' : list B) :
  map_err f l = inr l' -> List.length l' = List.length l.
Proof.
  revert l'. induction l as [|a l IH]; intros l' H; cbn in H.
  - now injection H as <-.
  - destruct (f a); [discriminate|].
    destruct (map_err f l) as [|ys]; [discriminate|].
    injection H as <-. cbn. now rewrite (IH ys).
Qed.

Lemma add_to_groups_nonempty (key : list value) (e : env)
  (groups : list (list value * list env)) :
  add_to_groups key e groups <> [].
Proof.
  destruct groups as [|[k g] rest]; cbn; [discriminate|].
  destruct (key_eqb k key); discriminate.
Qed.

Lemma group_envs_nonempty (T : store) (params : list value)
  (by_ : list expr) (envs : list env)
  (acc gs : list (list value * list env)) :
  group_envs T params by_ envs acc = inr gs ->
  envs <> [] \/ acc <> [] -> gs <> [].
Proof.
  revert acc. induction envs as [|e envs IH]; intros acc H Hne.
  - cbn in H. injection H as <-. destruct Hne as [Hne|Hne]; [now elim Hne | exact Hne].
  - cbn in H. destruct (group_key T params by_ e) as [|key]; [discriminate|].
    apply (IH _ H). right. apply add_to_groups_nonempty.
Qed.

Lemma eval_select_nonempty (T : store) (params : list value)
  (ctes : list (string * list row)) (q : select)
  (envs : list env) (e : env) (rows : list row) :
  from_envs T params ctes q = inr envs ->
  In e envs ->
  (forall b, holds T params (sel_where q) e = inr b -> b = true) ->
  eval_select T params ctes q = inr rows ->
  rows <> [].
Proof.
  intros Hf Hin Hh. unfold eval_select. rewrite Hf.
  destruct (filter_err _ envs) as [|kept] eqn:F; [discriminate|].
  assert (Hk : In e kept).
  { apply (filter_err_In _ _ _ F). split; [exact Hin|].
    destruct (filter_err_total _ _ _ F e Hin) as [b Hb].
    now rewrite Hb, (Hh b Hb). }
  destruct (groups_of T params q kept) as [|groups] eqn:G; [discriminate|].
  intros M. apply map_err_length in M.
  assert (Hg : groups <> []).
  { unfold groups_of in G. destruct (sel_group q) as [|x by_].
    - destruct (existsb is_aggregate (sel_items q)); [discriminate|].
      injection G as <-. destruct kept; [destruct Hk | discriminate].
    - destruct (group_envs T params (x :: by_) kept []) as [|gs] eqn:Gs;
        [discriminate|]. injection G as <-.
      apply group_envs_nonempty in Gs.
      + destruct gs; [now elim Gs | discriminate].
      + left. destruct kept; [destruct Hk | discriminate]. }
  destruct rows; [|discriminate]. destruct groups; [now elim Hg | discriminate M].
Qed.

(** A left join keeps every row of its left table. *)
Lemma join_row_left (T : store) (params : list value) (alias : string)
  (l : row) (j : join) (right : list row) (es : list env) :
  join_kind_of j = LeftJoin ->
  join_row T params alias l j right = inr es ->
  exists x, In [(alias, Some l); (join_alias j, x)] es.
Proof.
  intros Hk. unfold join_row.
  destruct (filter_err _ right) as [|ms]; [discriminate|].
  intros H. injection H as <-. rewrite Hk.
  destruct ms as [|m ms]; [exists None | exists (Some m)]; now left.
Qed.

Lemma map_err_total {A B} (f : A -> exn + B) (l : list A) (l' : list B) :
  map_err f l = inr l' ->
  forall x, In x l -> exists y, f x = inr y /\ In y l'.
Proof.
  revert l'. induction l as [|a l IH]; intros l' H x Hx; [destruct Hx|].
  cbn in H. destruct (f a) as [e|b] eqn:Ea; [discriminate|].
  destruct (map_err f l) as [e|ys]; [discriminate|].
  injection H as <-. destruct Hx as [<- | Hx].
  - exists b. split; [exact Ea | now left].
  - destruct (IH ys eq_refl x Hx) as [y [Hy Hin]]. exists y.
    split; [exact Hy | now right].
Qed.

Lemma from_customers (T : store) (params : list value) (q : select)
  (customers : list row) (envs : list env) (r : row) :
  sel_table q = "customers" ->
  sel_alias q = "c" ->
  sel_join q = Some customer_join ->
  find_table "customers" (st_tables T) = Some customers ->
  from_envs T params [] q = inr envs ->
  In r customers ->
  exists x, In [("c", Some r); ("t", x)] envs.
Proof.
  intros Ht Ha Hj Hc. unfold from_envs, table_rows.
  rewrite Ht, Ha, Hj. cbn [find_table]. rewrite Hc.
  destruct (find_table (join_table customer_join) (st_tables T)) as [right|];
    [|discriminate].
  destruct (map_err _ customers) as [|parts] eqn:M; [discriminate|].
  intros H Hr. injection H as <-.
  destruct (map_err_total _ _ _ M r Hr) as [part [Hp Hin]].
  apply join_row_left in Hp as [x Hx]; [|reflexivity].
  exists x. apply in_concat. exists part. split; [exact Hin | exact Hx].
Qed.

(** ** The conditions of the two customer statements *)


Lemma holds_name_or_email_ilike (T : store) (params : list value)
  (p n : string) (r : row) (x : option row) (b : bool) :
  nth_error params 0 = Some (VText p) ->
  lookup "name" r = Some (VText n) ->
  ilike n p = true ->
  holds T params (sel_where customer_info_select)
    [("c", Some r); ("t", x)]
  = inr b ->
  b = true.
Proof.
  intros Hp Hn Hi.
  cbn [holds sel_where customer_info_select eval_cond eval_expr].
  unfold column_value. cbn [find_binding String.eqb Ascii.eqb Bool.eqb].
  rewrite Hn, Hp. cbn. rewrite Hi.
  destruct (lookup "email" r) as [v|]; cbn; [|discriminate].
  destruct params as [|p0 [|p1 ps]]; cbn; try discriminate.
  destruct (ilike_values v p1) as [|t]; cbn; [discriminate|].
  intros H. now injection H as <-.
Qed.

(** ** The rows of the two customer statements *)

Lemma customer_info_rows_nonempty (T : store) (p n : string)
  (customers : list row) (r : row) (rows : list row) :
  find_table "customers" (st_tables T) = Some customers ->
  In r customers ->
  lookup "name" r = Some (VText n) ->
  ilike n p = true ->
  eval_statement T [VText p; VText p] customer_info_statement = inr rows ->
  rows <> [].
Proof.
  intros Hc Hr Hn Hi. unfold eval_statement. cbn [st_with st_body customer_info_statement].
  intros H.
  destruct (from_envs T [VText p; VText p] [] customer_info_select)
    as [|envs] eqn:F.
  { unfold eval_select in H. rewrite F in H. discriminate H. }
  destruct (from_customers T _ customer_info_select _ _ r
              eq_refl eq_refl eq_refl Hc F Hr) as [x Hx].
  apply (eval_select_nonempty _ _ _ _ _ _ _ F Hx); [|exact H].
  intros b. now apply holds_name_or_email_ilike with (p := p) (n := n).
Qed.

Lemma customer_info_rows_total_tickets (T : store) (params : list value)
  (rows : list row) (r : row) :
  eval_statement T params customer_info_statement = inr rows ->
  In r rows ->
  exists v, lookup "total_tickets" r = Some v.
Proof.
  unfold eval_statement, eval_select.
  cbn [st_with st_body customer_info_statement].
  destruct (from_envs _ _ _ _) as [|envs]; [discriminate|].
  destruct (filter_err _ envs) as [|kept]; [discriminate|].
  destruct (groups_of _ _ _ kept) as [|groups]; [discriminate|].
  intros M Hr. apply (map_err_In _ _ _ M) in Hr as [g [_ Hb]].
  cbn [sel_items customer_info_select] in Hb.
  apply build_row_tail in Hb as [acc Hb].
  apply build_row_sets in Hb as [v [_ Hv]]; [|reflexivity].
  now exists v.
Qed.



Lemma run_get_customer_info (K : Connector) (search : string) :
  connect K = None ->
  run (get_customer_info K search)
  = match execute K customer_info_query
            [VText (wildcard_wrap search); VText (wildcard_wrap search)] with
    | inl e => Raise e
    | inr [] => Return [[("message", VText (no_customer_text search))]]
    | inr (r :: rows) => Return (r :: rows)
    end.
Proof.
  intros Hc. unfold_tools. rewrite Hc.
  now destruct (execute K _ _) as [|[|]].
Qed.

Lemma run_get_customer_health_score (K : Connector) (name : string) :
  connect K = None ->
  run (get_customer_health_score K name)
  = match execute K health_score_query [VText (wildcard_wrap name)] with
    | inl e => Raise e
    | inr [] | inr ([] :: _) =>
        Return [("error", VText (no_customer_text name))]
    | inr ((col :: cols) :: _) =>
        match lookup "health_score" (col :: cols) with
        | Some _ => Return (col :: cols)
        | None => Raise (KeyError "health_score")
        end
    end.
Proof.
  intros Hc. unfold_tools. rewrite Hc.
  destruct (execute K _ _) as [|[|[|col cols] rest]]; try reflexivity.
  now destruct (lookup _ _).
Qed.



(** A customer whose name the bound pattern matches keeps both tools from
    their no-customer-found answer. *)
Lemma get_customer_info_found (T : store) (K : Connector)
  (customers : list row) (r : row) (n search : string) (msg : value) :
  answers T K ->
  find_table "customers" (st_tables T) = Some customers ->
  In r customers ->
  lookup "name" r = Some (VText n) ->
  ilike n (wildcard_wrap search) = true ->
  run (get_customer_info K search) <> Return [[("message", msg)]].
Proof.
  intros [Hc Ha] Ht Hr Hn Hi.
  rewrite run_get_customer_info by exact Hc.
  destruct (execute K customer_info_query _) as [e|rows] eqn:E;
    [discriminate|].
  destruct (Ha _ _ _ _ parse_customer_info E) as [rows0 [M P]].
  assert (Hne : rows0 <> []).
  { eapply customer_info_rows_nonempty; eauto. }
  destruct rows as [|row rows].
  { apply Permutation_nil in P. congruence. }
  intros H. injection H as -> ->.
  destruct (customer_info_rows_total_tickets T _ rows0 [("message", msg)] M)
    as [v Hv].
  { apply (Permutation_in _ P). now left. }
  discriminate Hv.
Qed.





(** The condition of the statement of get_customer_info, on a customer
    whose name and email are texts. *)
Lemma holds_name_or_email_texts (T : store) (p n m : string) (r : row)
  (x : option row) :
  lookup "name" r = Some (VText n) ->
  lookup "email" r = Some (VText m) ->
  holds T [VText p; VText p] (sel_where customer_info_select)
    [("c", Some r); ("t", x)]
  = inr (ilike n p || ilike m p).
Proof.
  intros Hn Hm.
  cbn [holds sel_where customer_info_select eval_cond eval_expr].
  unfold column_value. cbn [find_binding String.eqb Ascii.eqb Bool.eqb].
  rewrite Hn, Hm. cbn. now destruct (ilike n p), (ilike m p).
Qed.

(** The bound pattern of a search text without wildcards. *)
Lemma ilike_wrap_literal (name search : string) :
  literal search = true ->
  ilike name (wildcard_wrap search) = contains (lower search) (lower name).
Proof.
  intros H. unfold ilike, wildcard_wrap. rewrite !lower_app.
  apply like_wrap_literal. now rewrite literal_lower.
Qed.

(** X15.  The partial match of get_customer_info, read from its statement:
    for a search text without [%], [_] and backslash, the condition of the
    statement holds on a customer whose name and email are texts exactly
    when one of the two contains the search text, letter case aside; and
    over a store with a customer whose name contains it, the tool does not
    answer that no customer was found. *)
Theorem get_customer_info_partial_match
  (T : store) (K : Connector) (customers : list row) (search : string) :
  answers T K ->
  find_table "customers" (st_tables T) = Some customers ->
  literal search = true ->
  parse_sql customer_info_query = Some customer_info_statement /\
  (forall r n m t,
      lookup "name" r = Some (VText n) ->
      lookup "email" r = Some (VText m) ->
      holds T [VText (wildcard_wrap search); VText (wildcard_wrap search)]
        (sel_where customer_info_select) [("c", Some r); ("t", t)]
      = inr (contains (lower search) (lower n)
             || contains (lower search) (lower m))) /\
  (forall r n,
      In r customers ->
      lookup "name" r = Some (VText n) ->
      contains (lower search) (lower n) = true ->
      run (get_customer_info K search)
      <> Return [[("message",
                   VText ("No customer found matching '" ++ search ++ "'"))]]).
Proof.
  intros Ha Ht Hl. split; [exact parse_customer_info|]. split.
  - intros r n m t Hn Hm.
    rewrite (holds_name_or_email_texts T _ n m r t Hn Hm).
    now rewrite !ilike_wrap_literal by exact Hl.
  - intros r n Hr Hn Hcont.
    apply (get_customer_info_found T K customers r n search _ Ha Ht Hr Hn).
    now rewrite ilike_wrap_literal.
Qed.

Lemma get_customer_info_partial_match_witness :
  run (get_customer_info (sql_store sample_store) "ccent")
  <> Return [[("message", VText "No customer found matching 'ccent'")]].
Proof.
  eapply (proj2 (proj2 (get_customer_info_partial_match sample_store
                          (sql_store sample_store) _ "ccent"
                          (sql_store_answers sample_store)
                          eq_refl eq_refl))
            _ "Accenture").
  - right. left. reflexivity.
  - reflexivity.
  - reflexivity.
Defined.

(** What the rows of the two calls of get_open_tickets are to each other,
    for a connector that answers over a store. *)
Lemma get_open_tickets_rows (T : store) (K : Connector) (c : ascii)
  (p : string) (filtered unfiltered : list row) :
  answers T K ->
  run (get_open_tickets K (Some (String c p))) = Return filtered ->
  run (get_open_tickets K None) = Return unfiltered ->
  (forall r,
      In r filtered <->
      In r unfiltered /\ lookup "priority" r = Some (VText (String c p))) /\
  (forall r,
      In r unfiltered ->
      lookup "status" r = Some (VText "Open") \/
      lookup "status" r = Some (VText "In Progress")).
Proof.
  intros [Hc Ha] Hf Hu.
  rewrite run_get_open_tickets in Hf, Hu by exact Hc.
  rewrite get_open_tickets_request_truthy in Hf, Hu.
  cbn [truthy fst snd] in Hf, Hu.
  destruct (execute K ((open_tickets_query ++ priority_clause)
                         ++ order_clause) [VText (String c p)])
    as [e1|rows1] eqn:E1; [discriminate|]. injection Hf as ->.
  destruct (execute K (open_tickets_query ++ order_clause) [])
    as [e0|rows0] eqn:E0; [discriminate|]. injection Hu as ->.
  destruct (Ha _ _ _ _ parse_open_tickets_priority E1) as [m1 [M1 P1]].
  destruct (Ha _ _ _ _ parse_open_tickets E0) as [m0 [M0 P0]].
  destruct (open_tickets_rows T _ _ _ M1 M0) as [Hsub Hst].
  assert (In1 : forall r, In r filtered <-> In r m1).
  { intros r. split; apply Permutation_in; [|symmetry]; exact P1. }
  assert (In0 : forall r, In r unfiltered <-> In r m0).
  { intros r. split; apply Permutation_in; [|symmetry]; exact P0. }
  split.
  - intros r. now rewrite In1, In0, Hsub.
  - intros r Hr. apply Hst. now apply In0.
Qed.

(** X18.  When no row of the call without a priority carries the
    priority asked for, in that exact spelling, the call with it returns
    the empty list: [get_open_tickets] has no message for that case. *)
Theorem get_open_tickets_no_match
  (T : store) (K : Connector) (c : ascii) (p : string)
  (filtered unfiltered : list row) :
  answers T K ->
  run (get_open_tickets K (Some (String c p))) = Return filtered ->
  run (get_open_tickets K None) = Return unfiltered ->
  (forall r,
      In r unfiltered -> lookup "priority" r <> Some (VText (String c p))) ->
  run (get_open_tickets K (Some (String c p))) = Return [].
Proof.
  intros Ha Hf Hu Hno.
  destruct (get_open_tickets_rows T K c p _ _ Ha Hf Hu) as [Hsub _].
  rewrite Hf. destruct filtered as [|r rest]; [reflexivity|].
  destruct (proj1 (Hsub r) (or_introl eq_refl)) as [Hin Hp].
  now elim (Hno r Hin).
Qed.

Lemma get_open_tickets_no_match_witness :
  run (get_open_tickets (sql_store sample_store) (Some "high")) = Return [].
Proof.
  apply (get_open_tickets_no_match sample_store (sql_store sample_store)
           "h" "igh" []
           [[("id", VInt 10); ("subject", VText "Login fails");
             ("status", VText "Open"); ("priority", VText "High");
             ("created_at", VTimestamp 172800);
             ("customer_name", VText "ASML");
             ("subscription_tier", VText "Enterprise"); ("mrr", VInt 50000);
             ("country", VText "NL"); ("days_open", VInt 8)];
            [("id", VInt 11); ("subject", VText "Slow export");
             ("status", VText "In Progress"); ("priority", VText "Low");
             ("created_at", VTimestamp 259200);
             ("customer_name", VText "Accenture");
             ("subscription_tier", VText "Pro"); ("mrr", VInt 30000);
             ("country", VText "IE"); ("days_open", VInt 7)]]
           (sql_store_answers sample_store) eq_refl eq_refl).
  intros r Hr. cbn in Hr.
  repeat (destruct Hr as [<- | Hr]; [discriminate|]). destruct Hr.
Defined.

(** ** The score column of the health score statement *)

Lemma row_set_keys (k k' : string) (v : value) (r : row) :
  In k' (map fst (row_set k v r)) <-> k' = k \/ In k' (map fst r).
Proof.
  induction r as [|[k0 w] r IH]; cbn.
  - intuition.
  - destruct (k0 =? k)%string eqn:E; cbn.
    + apply String.eqb_eq in E. subst k0. intuition.
    + rewrite IH. intuition.
Qed.

Lemma row_set_nodup (k : string) (v : value) (r : row) :
  NoDup (map fst r) -> NoDup (map fst (row_set k v r)).
Proof.
  induction r as [|[k0 w] r IH]; cbn; intros H.
  - constructor; [intros [] | constructor].
  - inversion H as [|? ? Hk Hr]; subst.
    destruct (k0 =? k)%string eqn:E; cbn.
    + now constructor.
    + constructor; [|now apply IH].
      rewrite row_set_keys. intros [-> | Hin]; [|now apply Hk].
      now rewrite String.eqb_refl in E.
Qed.

Lemma row_update_nodup (cols acc : row) :
  NoDup (map fst acc) -> NoDup (map fst (row_update acc cols)).
Proof.
  unfold row_update. revert acc.
  induction cols as [|[k v] cols IH]; intros acc H; cbn; [exact H|].
  apply IH. now apply row_set_nodup.
Qed.

Lemma build_row_nodup (T : store) (params : list value) (g : list env)
  (items : list item) (acc r : row) :
  build_row T params g items acc = inr r ->
  NoDup (map fst acc) -> NoDup (map fst r).
Proof.
  revert acc. induction items as [|[q|x alias] items IH]; intros acc H Hn.
  - cbn in H. now injection H as <-.
  - cbn [build_row] in H. destruct g as [|e g]; [discriminate|].
    destruct (star_columns e q) as [|cols]; [discriminate|].
    apply (IH _ H). now apply row_update_nodup.
  - cbn [build_row] in H.
    destruct (eval_item T params g x) as [|v]; [discriminate|].
    apply (IH _ H). now apply row_set_nodup.
Qed.

Lemma lookup_absent (k : string) (r : row) :
  ~ In k (map fst r) -> lookup k r = None.
Proof.
  induction r as [|[k0 w] r IH]; cbn; intros H; [reflexivity|].
  destruct (k0 =? k)%string eqn:E.
  - apply String.eqb_eq in E. elim H. now left.
  - apply IH. intros Hin. apply H. now right.
Qed.

(** Writing the columns of a row with distinct names into a dictionary:
    each name then holds the value the row gave it. *)
Lemma lookup_row_update (k : string) (cols acc : row) :
  NoDup (map fst cols) ->
  lookup k (row_update acc cols)
  = match lookup k cols with
    | Some v => Some v
    | None => lookup k acc
    end.
Proof.
  unfold row_update. revert acc.
  induction cols as [|[k0 v0] cols IH]; intros acc H; cbn; [reflexivity|].
  inversion H as [|? ? Hk Hr]; subst. rewrite (IH _ Hr).
  destruct (k0 =? k)%string eqn:E.
  - apply String.eqb_eq in E. subst k0.
    now rewrite (lookup_absent _ _ Hk), lookup_row_set_same.
  - rewrite lookup_row_set_other; [reflexivity|].
    intros ->. now rewrite String.eqb_refl in E.
Qed.

Lemma filter_err_all {A} (f : A -> exn + bool) (l : list A) :
  (forall x, f x = inr true) -> filter_err f l = inr l.
Proof.
  intros H. induction l as [|a l IH]; cbn; [reflexivity|].
  now rewrite H, IH.
Qed.

(** The [CASE] of the statement on a row whose two counts are [o] and [h]. *)
Lemma health_score_case_eval (T : store) (params : list value) (e : env)
  (o h : N) :
  column_value e None "open_tickets" = inr (VInt (Z.of_N o)) ->
  column_value e None "high_priority_tickets" = inr (VInt (Z.of_N h)) ->
  eval_expr T params e health_score_case
  = inr (SVal (VInt (Z.of_N (health_score o h)))).
Proof.
  intros Ho Hh. unfold health_score_case, health_score.
  cbn [eval_expr eval_cond]. rewrite Ho, Hh. cbn [as_value compare_values].
  repeat match goal with
    | |- context [(?a =? ?b)%Z] => destruct (Z.eqb_spec a b)
    | |- context [(?a <=? ?b)%Z] => destruct (Z.leb_spec a b)
    | |- context [(?a =? ?b)%N] => destruct (N.eqb_spec a b)
    | |- context [(?a <=? ?b)%N] => destruct (N.leb_spec a b)
    end; cbn; try reflexivity; exfalso; lia.
Qed.

(** A [COUNT] is a number of rows. *)
Lemma eval_item_count (T : store) (params : list value) (g : list env)
  (a : expr) (v : value) :
  eval_item T params g (ECount a) = inr v ->
  exists n : nat, v = VInt (Z.of_nat n).
Proof.
  cbn [eval_item]. destruct (map_err _ g) as [|vs]; [discriminate|].
  intros H. injection H as <-. eauto.
Qed.

(** The rows of the inner select of the health score statement: distinct
    column names, and the two counts the [CASE] reads. *)
Lemma health_metrics_rows (T : store) (params : list value)
  (metrics : list row) (m : row) :
  eval_select T params [] health_metrics_select = inr metrics ->
  In m metrics ->
  NoDup (map fst m) /\
  exists o h : nat,
    lookup "open_tickets" m = Some (VInt (Z.of_nat o)) /\
    lookup "high_priority_tickets" m = Some (VInt (Z.of_nat h)).
Proof.
  unfold eval_select.
  destruct (from_envs _ _ _ _) as [|envs]; [discriminate|].
  destruct (filter_err _ envs) as [|kept]; [discriminate|].
  destruct (groups_of _ _ _ kept) as [|groups]; [discriminate|].
  intros M Hm. apply (map_err_In _ _ _ M) in Hm as [g [_ Hb]].
  split; [apply (build_row_nodup _ _ _ _ _ _ Hb); constructor|].
  cbn [sel_items health_metrics_select] in Hb.
  do 6 (apply build_row_tail in Hb as [? Hb]).
  pose proof Hb as Ho.
  apply build_row_sets in Ho as [vo [Eo Lo]]; [|reflexivity].
  apply build_row_tail in Hb as [? Hb].
  apply build_row_sets in Hb as [vh [Eh Lh]]; [|reflexivity].
  apply eval_item_count in Eo as [o ->]. apply eval_item_count in Eh as [h ->].
  now exists o, h.
Qed.

(** Every row of the health score statement carries the counts of its
    customer and, as [health_score], the rule applied to them. *)
Lemma health_score_rows_rule (T : store) (params : list value)
  (rows : list row) (r : row) :
  eval_statement T params health_score_statement = inr rows ->
  In r rows ->
  exists o h : N,
    lookup "open_tickets" r = Some (VInt (Z.of_N o)) /\
    lookup "high_priority_tickets" r = Some (VInt (Z.of_N h)) /\
    lookup "health_score" r = Some (VInt (Z.of_N (health_score o h))).
Proof.
  unfold eval_statement. cbn [st_with st_body health_score_statement].
  destruct (eval_select T params [] health_metrics_select)
    as [|metrics] eqn:E; [discriminate|].
  unfold eval_select, from_envs, table_rows.
  cbn [sel_table sel_join sel_alias sel_where
         health_score_select find_table String.eqb Ascii.eqb Bool.eqb].
  rewrite filter_err_all by reflexivity.
  unfold groups_of.
  change (existsb is_aggregate (sel_items health_score_select)) with false.
  cbn [sel_group sel_items health_score_select].
  intros M Hr. apply (map_err_In _ _ _ M) in Hr as [g [Hg Hb]].
  apply in_map_iff in Hg as [e [<- He]].
  apply in_map_iff in He as [m [<- Hm]].
  destruct (health_metrics_rows T params metrics m E Hm)
    as [Hn [o [h [Ho Hh]]]].
  cbn [build_row star_columns map_err snd List.concat] in Hb.
  rewrite app_nil_r in Hb.
  change (eval_item T params [[("customer_metrics", Some m)]]
            health_score_case)
    with (v <-! eval_expr T params [("customer_metrics", Some m)]
                  health_score_case ;;
          as_value v) in Hb.
  rewrite <- nat_N_Z in Ho, Hh.
  rewrite (health_score_case_eval T params _ (N.of_nat o) (N.of_nat h)) in Hb.
  - cbn [as_value item_name] in Hb. injection Hb as <-.
    exists (N.of_nat o), (N.of_nat h).
    rewrite !lookup_row_set_other by discriminate.
    rewrite !lookup_row_update by exact Hn.
    rewrite Ho, Hh, lookup_row_set_same. auto.
  - unfold column_value. cbn [find_column]. now rewrite Ho.
  - unfold column_value. cbn [find_column]. now rewrite Hh.
Qed.

(** X17.  The score [get_customer_health_score] returns is the rule of the
    [CASE], read from the text of the statement: over a store in whatever
    state and a connector that answers over it, what the tool returns is
    its no-customer-found answer or a row that carries the two counts of a
    customer and, as [health_score], [health_score] of the two. *)
Theorem health_score_column_follows_rule
  (T : store) (K : Connector) (customer_name : string) (result : row) :
  answers T K ->
  run (get_customer_health_score K customer_name) = Return result ->
  parse_sql health_score_query = Some health_score_statement /\
  sel_items (st_body health_score_statement)
  = [IStar None; IExpr health_score_case (Some "health_score")] /\
  (forall params e o h,
      column_value e None "open_tickets" = inr (VInt (Z.of_N o)) ->
      column_value e None "high_priority_tickets" = inr (VInt (Z.of_N h)) ->
      eval_expr T params e health_score_case
      = inr (SVal (VInt (Z.of_N (health_score o h))))) /\
  (result
   = [("error",
       VText ("No customer found matching '" ++ customer_name ++ "'"))] \/
   exists o h : N,
     lookup "open_tickets" result = Some (VInt (Z.of_N o)) /\
     lookup "high_priority_tickets" result = Some (VInt (Z.of_N h)) /\
     lookup "health_score" result = Some (VInt (Z.of_N (health_score o h)))).
Proof.
  intros [Hc Ha] Hrun.
  split; [exact parse_health_score|]. split; [reflexivity|].
  split; [intros params e o h; apply health_score_case_eval|].
  rewrite run_get_customer_health_score in Hrun by exact Hc.
  destruct (execute K health_score_query _) as [e|rows] eqn:E;
    [discriminate|].
  destruct (Ha _ _ _ _ parse_health_score E) as [rows0 [M P]].
  destruct rows as [|[|col cols] rest].
  - left. now injection Hrun as <-.
  - left. now injection Hrun as <-.
  - right. destruct (lookup "health_score" (col :: cols)); [|discriminate].
    injection Hrun as <-.
    apply (health_score_rows_rule T _ rows0 _ M).
    apply (Permutation_in _ P). now left.
Qed.

Lemma health_score_column_follows_rule_witness :
  [("id", VInt 1); ("name", VText "ASML");
   ("subscription_tier", VText "Enterprise"); ("mrr", VInt 50000);
   ("account_age_days", VInt 10); ("total_tickets", VInt 2);
   ("open_tickets", VInt 1); ("high_priority_tickets", VInt 2);
   ("avg_resolution_days", VRatio 2 1); ("health_score", VInt 40)]
  = [("error", VText "No customer found matching 'asml'")] \/
  exists o h : N,
    lookup "open_tickets"
      [("id", VInt 1); ("name", VText "ASML");
       ("subscription_tier", VText "Enterprise"); ("mrr", VInt 50000);
       ("account_age_days", VInt 10); ("total_tickets", VInt 2);
       ("open_tickets", VInt 1); ("high_priority_tickets", VInt 2);
       ("avg_resolution_days", VRatio 2 1); ("health_score", VInt 40)]
    = Some (VInt (Z.of_N o)) /\
    lookup "high_priority_tickets"
      [("id", VInt 1); ("name", VText "ASML");
       ("subscription_tier", VText "Enterprise"); ("mrr", VInt 50000);
       ("account_age_days", VInt 10); ("total_tickets", VInt 2);
       ("open_tickets", VInt 1); ("high_priority_tickets", VInt 2);
       ("avg_resolution_days", VRatio 2 1); ("health_score", VInt 40)]
    = Some (VInt (Z.of_N h)) /\
    lookup "health_score"
      [("id", VInt 1); ("name", VText "ASML");
       ("subscription_tier", VText "Enterprise"); ("mrr", VInt 50000);
       ("account_age_days", VInt 10); ("total_tickets", VInt 2);
       ("open_tickets", VInt 1); ("high_priority_tickets", VInt 2);
       ("avg_resolution_days", VRatio 2 1); ("health_score", VInt 40)]
    = Some (VInt (Z.of_N (health_score o h))).
Proof.
  apply (health_score_column_follows_rule sample_store
           (sql_store sample_store) "asml" _
           (sql_store_answers sample_store) eq_refl).
Defined.

(** ** The reference store against the text

    On the sample data the rows written out by hand are the rows the
    statements evaluate to, in an order of their own. *)
Example reference_store_agrees_on_sample :
  Forall
    (fun request =>
       exists rows rows0,
         execute (pg sample_db) (fst request) (snd request) = inr rows /\
         execute (sql_store (store_of sample_db)) (fst request) (snd request)
         = inr rows0 /\
         Permutation rows rows0)
    sample_requests.
Proof.
  repeat constructor; eexists; eexists;
    (split; [vm_compute; reflexivity|]);
    (split; [vm_compute; reflexivity|]);
    first [reflexivity | apply perm_swap].
Qed.
